(** * Verification of the currency conversion engine of [currency-config.js]

    The development embeds the [CurrencyConfig] object of
    [src/currency-config.js] in Rocq: its registry, its preference
    resolution over [localStorage] / [sessionStorage], [convertAmount],
    [formatCurrency], [updatePriceElement], [extractPriceFromText],
    [processPageElements] and the callback of [setupMutationObserver].

    The JavaScript built-ins the code relies on are modelled after
    ECMA-262: strings are lists of UTF-16 code units, numbers are binary64
    values ([spec_float] with [prec = 53], [emax = 1024]), and regular
    expressions are interpreted by a backtracking matcher with capture
    groups, on which [String.prototype.match] and
    [String.prototype.replace] are defined. *)

From Stdlib Require Import ZArith NArith List String Ascii Bool Lia DecimalN.
From Stdlib Require Import Floats.SpecFloat.
From stdpp Require Import gmap.

Import ListNotations.
Local Open Scope list_scope.

(* ===================================================================== *)
(** ** JavaScript strings *)
(* ===================================================================== *)

(** A JavaScript string is a sequence of UTF-16 code units. *)
Definition jsstring : Type := list N.

(** [js "..."] is the JavaScript string of an ASCII literal. *)
Definition js (s : string) : jsstring :=
  map N_of_ascii (list_ascii_of_string s).

Definition DOLLAR : N := 36.     (* $ *)
Definition COMMA  : N := 44.     (* , *)
Definition MINUS  : N := 45.     (* - *)
Definition PLUS   : N := 43.     (* + *)
Definition DOT    : N := 46.     (* . *)
Definition EURO   : N := 8364.   (* U+20AC *)
Definition POUND  : N := 163.    (* U+00A3 *)
Definition YEN    : N := 165.    (* U+00A5 *)

(** [\d] : the ASCII digits. *)
Definition is_digit (c : N) : bool := ((48 <=? c) && (c <=? 57))%N.

(** [\w] without the unicode flag: [A-Za-z0-9_]. *)
Definition is_word (c : N) : bool :=
  (((65 <=? c) && (c <=? 90)) || ((97 <=? c) && (c <=? 122))
   || is_digit c || (c =? 95))%N.

(** [\s], also the [StrWhiteSpaceChar] of [parseFloat]: WhiteSpace and
    LineTerminator of ECMA-262. *)
Definition is_space (c : N) : bool :=
  ((c =? 9) || (c =? 10) || (c =? 11) || (c =? 12) || (c =? 13)
   || (c =? 32) || (c =? 160) || (c =? 5760)
   || ((8192 <=? c) && (c <=? 8202))
   || (c =? 8232) || (c =? 8233) || (c =? 8239) || (c =? 8287)
   || (c =? 12288) || (c =? 65279))%N.

(** Canonicalize of a code unit for the [i] flag without the [u] flag:
    [toUpperCase], kept only when it stays on the same side of U+0080.
    The patterns of this program are ASCII, so only the ASCII letters
    matter: any other code unit is canonicalized to a non-ASCII unit or to
    itself, and never meets an ASCII pattern letter. *)
Definition canonicalize (c : N) : N :=
  if ((97 <=? c) && (c <=? 122))%N then (c - 32)%N else c.

Definition jsstring_eqb (a b : jsstring) : bool := bool_decide (a = b).

(** [s.startsWith(p)], returning the remainder. *)
Fixpoint strip_prefix (p s : jsstring) : option jsstring :=
  match p, s with
  | [], _ => Some s
  | x :: p', y :: s' => if (x =? y)%N then strip_prefix p' s' else None
  | _ :: _, [] => None
  end.

(** [s.includes(p)]. *)
Fixpoint includes (p s : jsstring) : bool :=
  match strip_prefix p s with
  | Some _ => true
  | None => match s with [] => false | _ :: s' => includes p s' end
  end.

(** Longest prefix of characters of a class, and the rest. *)
Fixpoint span (f : N -> bool) (s : jsstring) : jsstring * jsstring :=
  match s with
  | c :: s' => if f c then let (a, b) := span f s' in (c :: a, b) else ([], s)
  | [] => ([], [])
  end.

(** Truthiness of a string-or-null value: [null] and [""] are falsy. *)
Definition truthy (v : option jsstring) : bool :=
  match v with
  | Some (_ :: _) => true
  | _ => false
  end.

(** [a || b] on string-or-null values with a string default. *)
Definition or_else (v : option jsstring) (d : jsstring) : jsstring :=
  match v with
  | Some (c :: s) => c :: s
  | _ => d
  end.

(* ===================================================================== *)
(** ** JavaScript numbers *)
(* ===================================================================== *)

Module Number.

Definition prec : Z := 53.
Definition emax : Z := 1024.

(** A Number is a binary64 value. *)
Definition number : Type := spec_float.

Definition NaN : number := S754_nan.

Definition isNaN (x : number) : bool :=
  match x with S754_nan => true | _ => false end.

(** [x * y] *)
Definition mul (x y : number) : number := SFmul prec emax x y.

(** The Number nearest to the rational [n / d], ties to even. *)
Definition of_ratio (neg : bool) (n d : positive) : number :=
  SFdiv prec emax (S754_finite neg n 0) (S754_finite false d 0).

(** The Number of the decimal [(-1)^neg * digits * 10^e10]. *)
Definition of_decimal (neg : bool) (digits : N) (e10 : Z) : number :=
  match digits with
  | N0 => S754_zero neg
  | Npos p =>
      match e10 with
      | Zneg k => of_ratio neg p (Pos.pow 10 k)
      | Z0 => of_ratio neg p 1
      | Zpos k => of_ratio neg (p * Pos.pow 10 k) 1
      end
  end.

(** Decimal digits of a natural number, most significant first. *)
Fixpoint uint_digits (u : Decimal.uint) : jsstring :=
  match u with
  | Decimal.Nil => []
  | Decimal.D0 u' => 48%N :: uint_digits u'
  | Decimal.D1 u' => 49%N :: uint_digits u'
  | Decimal.D2 u' => 50%N :: uint_digits u'
  | Decimal.D3 u' => 51%N :: uint_digits u'
  | Decimal.D4 u' => 52%N :: uint_digits u'
  | Decimal.D5 u' => 53%N :: uint_digits u'
  | Decimal.D6 u' => 54%N :: uint_digits u'
  | Decimal.D7 u' => 55%N :: uint_digits u'
  | Decimal.D8 u' => 56%N :: uint_digits u'
  | Decimal.D9 u' => 57%N :: uint_digits u'
  end.

Definition decimal_digits (n : N) : jsstring := uint_digits (N.to_uint n).

(** Value of a string of decimal digits. *)
Definition digits_value (ds : jsstring) : N :=
  fold_left (fun acc c => (10 * acc + (c - 48))%N) ds 0%N.

(* ------------------------------------------------------------------- *)
(** *** [parseFloat] *)

Definition trim_start (s : jsstring) : jsstring := snd (span is_space s).

(** [ExponentPart] : [e] or [E], an optional sign, one digit or more.
    Returns the exponent and is [0] when the text has no exponent part
    (the longest prefix that is a literal then stops before it). *)
Definition exponent_part (s : jsstring) : Z :=
  match s with
  | c :: r =>
      if ((c =? 101) || (c =? 69))%N then
        let '(neg, r') :=
          match r with
          | x :: r'' =>
              if (x =? PLUS)%N then (false, r'')
              else if (x =? MINUS)%N then (true, r'')
              else (false, r)
          | [] => (false, r)
          end in
        match fst (span is_digit r') with
        | [] => 0%Z
        | ds => if neg then (- Z.of_N (digits_value ds))%Z
                else Z.of_N (digits_value ds)
        end
      else 0%Z
  | [] => 0%Z
  end.

(** [parseFloat(string)] : leading white space is skipped, the longest
    prefix that is a [StrDecimalLiteral] is converted, and the result is
    [NaN] when no prefix is one. *)
Definition parseFloat (s : jsstring) : number :=
  let t := trim_start s in
  let '(neg, t1) :=
    match t with
    | c :: r =>
        if (c =? PLUS)%N then (false, r)
        else if (c =? MINUS)%N then (true, r)
        else (false, t)
    | [] => (false, t)
    end in
  match strip_prefix (js "Infinity") t1 with
  | Some _ => S754_infinity neg
  | None =>
      let (ip, r1) := span is_digit t1 in
      let '(dot, fp, r2) :=
        match r1 with
        | c :: r =>
            if (c =? DOT)%N
            then let (fp, r2) := span is_digit r in (true, fp, r2)
            else (false, [], r1)
        | [] => (false, [], r1)
        end in
      match ip, fp with
      | [], [] => NaN
      | _, _ =>
          of_decimal neg (digits_value (ip ++ fp))
                     (exponent_part r2 - Z.of_nat (length fp))
      end
  end.

(* ------------------------------------------------------------------- *)
(** *** [Number.prototype.toFixed(2)] *)

(** [10^21 <= m * 2^e] *)
Definition ge_1e21 (m : positive) (e : Z) : bool :=
  match e with
  | Zneg k => (10 ^ 21 * 2 ^ Zpos k <=? Zpos m)%Z
  | _ => (10 ^ 21 <=? Zpos m * 2 ^ e)%Z
  end.

(** The integer [n] for which [n / 100 - m * 2^e] is as close to zero as
    possible, the larger one when there are two. *)
Definition nearest_hundredths (m : positive) (e : Z) : Z :=
  match e with
  | Zneg k => ((200 * Zpos m + 2 ^ Zpos k) / 2 ^ (Zpos k + 1))%Z
  | _ => (100 * Zpos m * 2 ^ e)%Z
  end.

(** The digits of [n], padded with zeros on the left to three digits at
    least; all but the last two of them, and the last two. *)
Definition fixed_digits (n : N) : jsstring :=
  let m := decimal_digits n in
  repeat 48%N (3 - length m) ++ m.

Definition integer_digits (n : N) : jsstring :=
  firstn (length (fixed_digits n) - 2) (fixed_digits n).

Definition fraction_digits (n : N) : jsstring :=
  skipn (length (fixed_digits n) - 2) (fixed_digits n).

Definition fixed2_string (n : N) : jsstring :=
  integer_digits n ++ DOT :: fraction_digits n.

(** Number::toString of a finite value of [10^21] or more, given as the
    integer [x] with the integers [lo] and [hi] that bound the reals
    rounding to it ([incl] when the bounds themselves do): the digits
    [s] (as few as possible, [k] of them) and the exponent [n] such that
    [s * 10^(n-k)] is that Number, the closest to [x] when several
    have [k] digits. *)
Definition candidate (x lo hi : Z) (incl : bool) (k n : Z) : option (Z * Z) :=
  let unit := (10 ^ (n - k))%Z in
  let ok s :=
    ((10 ^ (k - 1) <=? s) && (s <? 10 ^ k)
     && (if incl then (lo <=? s * unit) && (s * unit <=? hi)
         else (lo <? s * unit) && (s * unit <? hi)))%Z in
  let s0 := (x / unit)%Z in
  let s1 := (s0 + 1)%Z in
  match ok s0, ok s1 with
  | false, false => None
  | true, false => Some (s0, n)
  | false, true => Some (s1, n)
  | true, true =>
      match (x - s0 * unit ?= s1 * unit - x)%Z with
      | Lt => Some (s0, n)
      | Gt => Some (s1, n)
      | Eq => Some (if Z.even s0 then s0 else s1, n)
      end
  end.

Fixpoint shortest (fuel : nat) (x lo hi : Z) (incl : bool) (nd k : Z)
  : Z * Z * Z :=
  match fuel with
  | O => ((x / 10 ^ (nd - k))%Z, k, nd)
  | S fuel' =>
      match candidate x lo hi incl k nd with
      | Some (s, n) => (s, k, n)
      | None =>
          match candidate x lo hi incl k (nd + 1) with
          | Some (s, n) => (s, k, n)
          | None => shortest fuel' x lo hi incl nd (k + 1)
          end
      end
  end.

Definition toString_large (m : positive) (e : Z) : jsstring :=
  let x := (Zpos m * 2 ^ e)%Z in
  let half := (2 ^ (e - 1))%Z in
  let below := if (Zpos m =? 2 ^ 52)%Z then (2 ^ (e - 2))%Z else half in
  let nd := Z.of_nat (length (decimal_digits (Z.to_N x))) in
  let '(s, k, n) :=
    shortest 17 x (x - below) (x + half) (Z.even (Zpos m)) nd 1 in
  let ds := decimal_digits (Z.to_N s) in
  let ex := js "e+" ++ decimal_digits (Z.to_N (n - 1)) in
  match ds with
  | [d] => d :: ex
  | d :: ds' => d :: DOT :: ds' ++ ex
  | [] => ex
  end.

(** [x.toFixed(2)] *)
Definition toFixed2 (x : number) : jsstring :=
  match x with
  | S754_nan => js "NaN"
  | S754_infinity s => if s then js "-Infinity" else js "Infinity"
  | S754_zero _ => js "0.00"
  | S754_finite s m e =>
      (if s then [MINUS] else []) ++
      (if ge_1e21 m e then toString_large m e
       else fixed2_string (Z.to_N (nearest_hundredths m e)))
  end.

End Number.
Import Number.


(* ===================================================================== *)
(** ** Regular expressions *)
(* ===================================================================== *)

Module Regex.

(** The part of the pattern syntax the program uses.  [Quant min max a]
    is the greedy quantifier [a{min,max}] ([max = None] for no upper
    bound); [Group i a] is the [i]-th capturing group, counted by its
    left parenthesis. *)
Inductive regex : Type :=
| Empty
| Char (c : N)                      (* a pattern character *)
| Digit                             (* \d *)
| Space                             (* \s *)
| NotWordBoundary                   (* \B *)
| Seq (a b : regex)
| Alt (a b : regex)                 (* a|b *)
| Quant (min : nat) (max : option nat) (a : regex)
| Group (i : nat) (a : regex)       (* (a) *)
| LookAhead (a : regex)             (* (?=a) *)
| NegLookAhead (a : regex).         (* (?!a) *)

Definition Opt (a : regex) : regex := Quant 0 (Some 1) a.       (* a? *)
Definition Star (a : regex) : regex := Quant 0 None a.          (* a* *)
Definition Plus (a : regex) : regex := Quant 1 None a.          (* a+ *)
Definition Repeat (n : nat) (a : regex) : regex := Quant n (Some n) a.

(** The pattern of a literal text. *)
Fixpoint Lit (s : jsstring) : regex :=
  match s with
  | [] => Empty
  | [c] => Char c
  | c :: s' => Seq (Char c) (Lit s')
  end.

(** A match state: the text before the current position (nearest
    character first), the text after it, and the captures. *)
Record state : Type := State {
  before : jsstring;
  after : jsstring;
  captures : list (option jsstring)
}.

Definition consume (c : N) (x : state) (tl : jsstring) : state :=
  State (c :: before x) tl (captures x).

(** The capture slots (from 0) of the groups of a pattern. *)
Fixpoint groups (r : regex) : list nat :=
  match r with
  | Seq a b | Alt a b => groups a ++ groups b
  | Quant _ _ a | LookAhead a | NegLookAhead a => groups a
  | Group i a => pred i :: groups a
  | _ => []
  end.

Definition clear (r : regex) (x : state) : state :=
  State (before x) (after x)
        (fold_right (fun i cs => <[i := None]> cs) (captures x) (groups r)).

Definition is_word_at (s : jsstring) : bool :=
  match s with c :: _ => is_word c | [] => false end.

Definition continuation : Type := state -> option state.
Definition matcher : Type := state -> continuation -> option state.

(** RepeatMatcher for a greedy quantifier [{min,max}] on the atom
    matched by [ma]: the captures of the atom are cleared ([clr]) at
    each iteration, and once [min] is exhausted an iteration that
    consumes nothing is rejected.  Each iteration thus lowers [min] or
    shortens the remaining text, so [min + length] steps are never used
    up before the loop stops on its own. *)
Fixpoint repeat_matcher (ma : matcher) (clr : state -> state)
         (k : continuation) (fuel min : nat) (max : option nat)
         (x : state) {struct fuel} : option state :=
  match max with
  | Some O => k x
  | _ =>
      match fuel with
      | O => match min with O => k x | S _ => None end
      | S fuel' =>
          let d y :=
            if Nat.eqb min 0
               && Nat.eqb (length (after y)) (length (after x))
            then None
            else repeat_matcher ma clr k fuel' (pred min)
                                (option_map pred max) y in
          match min with
          | S _ => ma (clr x) d
          | O =>
              match ma (clr x) d with
              | Some z => Some z
              | None => k x
              end
          end
      end
  end.

(** The backtracking matcher, in continuation-passing style:
    [m ic r x k] matches [r] at [x] and hands every way of doing so, in
    priority order, to [k] until [k] accepts one.  [ic] is the [i]
    flag. *)
Fixpoint m (ic : bool) (r : regex) {struct r} : matcher :=
  match r with
  | Empty => fun x k => k x
  | Char c => fun x k =>
      match after x with
      | c' :: tl =>
          if (if ic then canonicalize c =? canonicalize c' else c =? c')%N
          then k (consume c' x tl) else None
      | [] => None
      end
  | Digit => fun x k =>
      match after x with
      | c' :: tl => if is_digit c' then k (consume c' x tl) else None
      | [] => None
      end
  | Space => fun x k =>
      match after x with
      | c' :: tl => if is_space c' then k (consume c' x tl) else None
      | [] => None
      end
  | NotWordBoundary => fun x k =>
      if xorb (is_word_at (before x)) (is_word_at (after x))
      then None else k x
  | Seq a b => fun x k => m ic a x (fun y => m ic b y k)
  | Alt a b => fun x k =>
      match m ic a x k with
      | Some z => Some z
      | None => m ic b x k
      end
  | Quant min max a => fun x k =>
      repeat_matcher (m ic a) (clear a) k
                     (min + length (after x)) min max x
  | Group i a => fun x k =>
      m ic a x (fun y =>
        k (State (before y) (after y)
             (<[pred i := Some (firstn (length (after x) - length (after y))
                                       (after x))]> (captures y))))
  | LookAhead a => fun x k =>
      match m ic a x Some with
      | Some y => k (State (before x) (after x) (captures y))
      | None => None
      end
  | NegLookAhead a => fun x k =>
      match m ic a x Some with
      | Some _ => None
      | None => k x
      end
  end.

(** A compiled regular expression: pattern and [i] flag. *)
Record RegExp : Type := mkRegExp { pattern : regex; ignoreCase : bool }.

Definition ngroups (r : RegExp) : nat :=
  fold_right (fun i n => Nat.max (S i) n) 0 (groups (pattern r)).

(** One attempt of the matcher at a position of the text. *)
Definition match_at (r : RegExp) (bef aft : jsstring) : option state :=
  m (ignoreCase r) (pattern r)
    (State bef aft (replicate (ngroups r) None)) Some.

(** The result of a match: where it starts, the matched text, the
    captures, and the text around it. *)
Record MatchResult : Type := Match {
  prefix : jsstring;          (* the text before the match, reversed *)
  matched : jsstring;
  groups_of : list (option jsstring);
  suffix : jsstring
}.

Definition result_at (bef aft : jsstring) (e : state) : MatchResult :=
  Match bef (firstn (length aft - length (after e)) aft)
        (captures e) (after e).

(** RegExpBuiltinExec from a position: the first index, from there on,
    at which the matcher succeeds. *)
Fixpoint exec_from (r : RegExp) (bef aft : jsstring) : option MatchResult :=
  match match_at r bef aft with
  | Some e => Some (result_at bef aft e)
  | None =>
      match aft with
      | [] => None
      | c :: tl => exec_from r (c :: bef) tl
      end
  end.

(** [str.match(r)] for a regular expression without the [g] flag. *)
Definition str_match (s : jsstring) (r : RegExp) : option MatchResult :=
  exec_from r [] s.

(** The [i]-th element of a match array ([i >= 1]), a string or
    [undefined]. *)
Definition group (i : nat) (mr : MatchResult) : option jsstring :=
  match groups_of mr !! pred i with
  | Some (Some s) => Some s
  | _ => None
  end.

(** GetSubstitution: expansion of [$$], [$&], [$`], [$'], [$n] and
    [$nn] in a replacement text (there are no named groups, so [$<] is
    literal). *)
Fixpoint GetSubstitution (mr : MatchResult) (tpl : jsstring) : jsstring :=
  let ncap := length (groups_of mr) in
  let cap i := match group i mr with Some s => s | None => [] end in
  match tpl with
  | [] => []
  | c :: t =>
      if (c =? DOLLAR)%N then
        match t with
        | [] => [c]
        | d :: t' =>
            if (d =? DOLLAR)%N then DOLLAR :: GetSubstitution mr t'
            else if (d =? 38)%N then matched mr ++ GetSubstitution mr t'
            else if (d =? 96)%N then rev (prefix mr) ++ GetSubstitution mr t'
            else if (d =? 39)%N then suffix mr ++ GetSubstitution mr t'
            else if is_digit d then
              let i1 := N.to_nat (d - 48) in
              let one_digit :=
                if (1 <=? i1) && (i1 <=? ncap)
                then cap i1 ++ GetSubstitution mr t'
                else c :: d :: GetSubstitution mr t' in
              match t' with
              | d2 :: t'' =>
                  if is_digit d2 then
                    let i2 := 10 * i1 + N.to_nat (d2 - 48) in
                    if ncap <? i2 then one_digit
                    else if 1 <=? i2
                    then cap i2 ++ GetSubstitution mr t''
                    else c :: d :: d2 :: GetSubstitution mr t''
                  else one_digit
              | [] => one_digit
              end
            else c :: GetSubstitution mr t
        end
      else c :: GetSubstitution mr t
  end.

(** [str.replace(r, replacement)] for a regular expression with the [g]
    flag and a replacement text, as one walk over the positions of
    [str].  [skip] counts the characters still covered by the last
    match.  At a position not covered, the matcher is tried: on a match
    the expanded replacement is emitted and the search resumes after the
    match, one character further when the match is empty (that
    character is copied); otherwise the character is copied. *)
Fixpoint replace_walk (r : RegExp) (tpl : jsstring)
         (bef aft : jsstring) (skip : nat) {struct aft} : jsstring :=
  match skip with
  | S n =>
      match aft with
      | c :: tl => replace_walk r tpl (c :: bef) tl n
      | [] => []
      end
  | O =>
      match match_at r bef aft with
      | Some e =>
          let mr := result_at bef aft e in
          GetSubstitution mr tpl ++
          match aft with
          | [] => []
          | c :: tl =>
              match length (matched mr) with
              | O => c :: replace_walk r tpl (c :: bef) tl 0
              | S n => replace_walk r tpl (c :: bef) tl n
              end
          end
      | None =>
          match aft with
          | [] => []
          | c :: tl => c :: replace_walk r tpl (c :: bef) tl 0
          end
      end
  end.

Definition replace_all (s : jsstring) (r : RegExp) (tpl : jsstring)
  : jsstring :=
  replace_walk r tpl [] s 0.

End Regex.
Import Regex.


(* ===================================================================== *)
(** ** The environment of the script *)
(* ===================================================================== *)

Inductive Exn : Type :=
| TypeError.        (* a property read on [undefined] *)

(** Completion of a call: a value, or an exception that escapes it. *)
Inductive Result (A : Type) : Type :=
| Ok (a : A)
| Throw (e : Exn).
Arguments Ok {A} a.
Arguments Throw {A} e.

Definition bind {A B : Type} (r : Result A) (f : A -> Result B) : Result B :=
  match r with
  | Ok a => f a
  | Throw e => Throw e
  end.

Notation "'let*' x ':=' r 'in' k" := (bind r (fun x => k))
  (at level 10, x name, r at level 100, k at level 200).

(** What the script sees of the browser besides the document: the two Web
    Storage areas, [document.cookie], and what it has sent out, the
    [currencyChanged] events dispatched on [window] (by their
    [detail.currency]) and the arguments logged by [console.error]. *)
Record Env : Type := mkEnv {
  localStorage : gmap jsstring jsstring;
  sessionStorage : gmap jsstring jsstring;
  cookie : jsstring;
  dispatched : list jsstring;
  console : list jsstring
}.

(** [storage.getItem(key)] : the stored string, or [null]. *)
Definition getItem (storage : gmap jsstring jsstring) (key : jsstring)
  : option jsstring := storage !! key.

(** [storage.setItem(key, value)] *)
Definition setItem (storage : gmap jsstring jsstring) (key value : jsstring)
  : gmap jsstring jsstring := <[key := value]> storage.

(** An element, as far as the script reads and writes it: its attributes,
    its content as markup ([innerHTML]) and as text ([textContent]: the
    character data of its descendants, without tags and with character
    references decoded), two views of the same content that the model
    keeps side by side.  Reading [innerHTML] after writing it is taken to
    give the markup written; the text is then that of the content the
    parser builds from this markup, [parsed_text]: the model leaves the
    parser open, every element carrying its own. *)
Record Element : Type := {
  attributes : gmap jsstring jsstring;
  innerHTML : jsstring;
  textContent : jsstring;
  parsed_text : jsstring -> jsstring
}.

(** An element of the examples, given by its attributes and its markup.
    Its text is taken to be the markup, and likewise for the markup
    assigned to it: this is the text the DOM gives when the markup is
    character data without character reference, as it is wherever an
    example reads the text. *)
Definition mkElement (attrs : gmap jsstring jsstring) (data : jsstring)
  : Element :=
  {| attributes := attrs; innerHTML := data; textContent := data;
     parsed_text := fun html => html |}.

Definition getAttribute (e : Element) (name : jsstring) : option jsstring :=
  attributes e !! name.

Definition hasAttribute (e : Element) (name : jsstring) : bool :=
  bool_decide (is_Some (attributes e !! name)).

Definition setAttribute (e : Element) (name value : jsstring) : Element :=
  {| attributes := <[name := value]> (attributes e);
     innerHTML := innerHTML e; textContent := textContent e;
     parsed_text := parsed_text e |}.

(** [element.innerHTML = html] *)
Definition set_innerHTML (e : Element) (html : jsstring) : Element :=
  {| attributes := attributes e; innerHTML := html;
     textContent := parsed_text e html; parsed_text := parsed_text e |}.

(** The tokens of a [class] attribute: split on ASCII white space. *)
Definition is_ascii_space (c : N) : bool :=
  ((c =? 9) || (c =? 10) || (c =? 12) || (c =? 13) || (c =? 32))%N.

Fixpoint tokens_aux (cur : jsstring) (s : jsstring) : list jsstring :=
  match s with
  | [] => match cur with [] => [] | _ => [rev cur] end
  | c :: s' =>
      if is_ascii_space c
      then match cur with
           | [] => tokens_aux [] s'
           | _ => rev cur :: tokens_aux [] s'
           end
      else tokens_aux (c :: cur) s'
  end.

Definition classList (e : Element) : list jsstring :=
  match getAttribute e (js "class") with
  | Some v => tokens_aux [] v
  | None => []
  end.

Definition has_class (e : Element) (c : jsstring) : bool :=
  existsb (jsstring_eqb c) (classList e).

(** A node of a document tree, as a mutation record delivers it:
    [nodeType] is 1 for an element and 3 for a text node. *)
Inductive Node : Type :=
| TextNode (data : jsstring)
| ElementNode (e : Element) (children : list Node).

Definition nodeType (n : Node) : nat :=
  match n with
  | TextNode _ => 3
  | ElementNode _ _ => 1
  end.

(** The descendant elements of a node, in document order. *)
Fixpoint descendants (n : Node) : list Element :=
  match n with
  | TextNode _ => []
  | ElementNode _ children =>
      flat_map (fun c =>
                  match c with
                  | TextNode _ => []
                  | ElementNode e _ => e :: descendants c
                  end) children
  end.

(** [node.querySelectorAll('[data-price]')] *)
Definition querySelectorAll_data_price (n : Node) : list Element :=
  filter (fun e => hasAttribute e (js "data-price")) (descendants n).

Record MutationRecord : Type := mkMutation {
  addedNodes : list Node
}.

(* ===================================================================== *)
(** ** The [CurrencyConfig] object *)
(* ===================================================================== *)

Record Currency : Type := mkCurrency {
  symbol : jsstring;
  name : jsstring;
  rate : number;
  position : jsstring
}.

(** The data properties of the object the methods read through [this]. *)
Record Config : Type := mkConfig {
  currencies : gmap jsstring Currency;
  defaultCurrency : jsstring;
  storageKey : jsstring
}.

(** Lines 2-41. *)
Definition CurrencyConfig : Config :=
  {| currencies :=
       <[js "USD" := mkCurrency [DOLLAR] (js "US Dollar")
                                (of_decimal false 10 (-1)) (js "before")]>
      (<[js "EUR" := mkCurrency [EURO] (js "Euro")
                                (of_decimal false 85 (-2)) (js "before")]>
      (<[js "GBP" := mkCurrency [POUND] (js "British Pound")
                                (of_decimal false 73 (-2)) (js "before")]>
      (<[js "ZAR" := mkCurrency (js "R") (js "South African Rand")
                                (of_decimal false 145 (-1)) (js "before")]>
      (<[js "JPY" := mkCurrency [YEN] (js "Japanese Yen")
                                (of_decimal false 1100 (-1)) (js "before")]>
       ∅))));
     defaultCurrency := js "USD";
     storageKey := js "userCurrencyPreference" |}.

(** The value of [this.currencies[code]].  The registry is an object
    literal, so a key it does not own is looked up on [Object.prototype]:
    the result is then one of its members, a function (or, for
    [__proto__], the prototype object itself), which is truthy and has
    none of the properties of a currency but, for a function, a [name]. *)
Inductive Property : Type :=
| Own (c : Currency)
| Inherited (fname : option jsstring)
| Undefined.

Definition object_prototype_members : list (jsstring * option jsstring) :=
  [ (js "constructor", Some (js "Object"));
    (js "__defineGetter__", Some (js "__defineGetter__"));
    (js "__defineSetter__", Some (js "__defineSetter__"));
    (js "hasOwnProperty", Some (js "hasOwnProperty"));
    (js "__lookupGetter__", Some (js "__lookupGetter__"));
    (js "__lookupSetter__", Some (js "__lookupSetter__"));
    (js "isPrototypeOf", Some (js "isPrototypeOf"));
    (js "propertyIsEnumerable", Some (js "propertyIsEnumerable"));
    (js "toString", Some (js "toString"));
    (js "valueOf", Some (js "valueOf"));
    (js "__proto__", None);
    (js "toLocaleString", Some (js "toLocaleString")) ].

Fixpoint assoc {A : Type} (l : list (jsstring * A)) (key : jsstring)
  : option A :=
  match l with
  | [] => None
  | (k, v) :: l' => if jsstring_eqb k key then Some v else assoc l' key
  end.

Definition get_currency (this : Config) (code : jsstring) : Property :=
  match currencies this !! code with
  | Some c => Own c
  | None =>
      match assoc object_prototype_members code with
      | Some fname => Inherited fname
      | None => Undefined
      end
  end.

(** Property reads on the value of a lookup; [None] is [undefined]. *)
Definition prop_rate (p : Property) : option number :=
  match p with Own c => Some (rate c) | _ => None end.
Definition prop_symbol (p : Property) : option jsstring :=
  match p with Own c => Some (symbol c) | _ => None end.
Definition prop_position (p : Property) : option jsstring :=
  match p with Own c => Some (position c) | _ => None end.
Definition prop_name (p : Property) : option jsstring :=
  match p with
  | Own c => Some (name c)
  | Inherited n => n
  | Undefined => None
  end.

(** ToString of a string or [undefined], as in a template literal or a
    concatenation. *)
Definition ToString (v : option jsstring) : jsstring :=
  match v with Some s => s | None => js "undefined" end.

(** ToNumber of a number or [undefined], as in a product. *)
Definition ToNumber (v : option number) : number :=
  match v with Some x => x | None => NaN end.

(** Lines 115-120: [checkIfUserIsLoggedIn]. *)
Definition checkIfUserIsLoggedIn (env : Env) : bool :=
  truthy (getItem (localStorage env) (js "authToken"))
  || truthy (getItem (sessionStorage env) (js "userLoggedIn"))
  || includes (js "user_session") (cookie env).

(** Lines 44-60: [getUserCurrency]. *)
Definition getUserCurrency (this : Config) (env : Env) : jsstring :=
  let isLoggedIn := checkIfUserIsLoggedIn env in
  let storedCurrency := getItem (localStorage env) (storageKey this) in
  if negb (truthy storedCurrency) && isLoggedIn then
    let sessionCurrency := getItem (sessionStorage env) (storageKey this) in
    or_else sessionCurrency (defaultCurrency this)
  else
    or_else storedCurrency (defaultCurrency this).

(** Lines 123-142: the body of [saveToServer] is commented out. *)
Definition saveToServer (env : Env) (currencyCode : jsstring) : Env := env.

(** Lines 63-86: [setUserCurrency]; returns the boolean and the
    environment it leaves. *)
Definition setUserCurrency (this : Config) (env : Env)
           (currencyCode : jsstring) : bool * Env :=
  match get_currency this currencyCode with
  | Undefined =>
      (false,
       mkEnv (localStorage env) (sessionStorage env) (cookie env)
             (dispatched env)
             (console env ++ [js "Invalid currency code:"; currencyCode]))
  | _ =>
      let env1 :=
        mkEnv (setItem (localStorage env) (storageKey this) currencyCode)
              (sessionStorage env) (cookie env) (dispatched env)
              (console env) in
      let env2 :=
        if checkIfUserIsLoggedIn env1 then
          saveToServer
            (mkEnv (localStorage env1)
                   (setItem (sessionStorage env1) (storageKey this)
                            currencyCode)
                   (cookie env1) (dispatched env1) (console env1))
            currencyCode
        else env1 in
      (true,
       mkEnv (localStorage env2) (sessionStorage env2) (cookie env2)
             (dispatched env2 ++ [currencyCode]) (console env2))
  end.

(** [/\B(?=(\d{3})+(?!\d))/g] *)
Definition RE_THOUSANDS : RegExp :=
  mkRegExp
    (Seq NotWordBoundary
         (LookAhead (Seq (Plus (Group 1 (Repeat 3 Digit)))
                         (NegLookAhead Digit))))
    false.

(** Lines 103-112: [formatCurrency]. *)
Definition formatCurrency (this : Config) (amount : number)
           (currencyCode : jsstring) : Result jsstring :=
  let currency :=
    match get_currency this currencyCode with
    | Undefined => get_currency this (defaultCurrency this)
    | p => p
    end in
  let formattedAmount :=
    replace_all (toFixed2 amount) RE_THOUSANDS [COMMA] in
  match currency with
  | Undefined => Throw TypeError
  | _ =>
      if bool_decide (prop_position currency = Some (js "before"))
      then Ok (ToString (prop_symbol currency) ++ formattedAmount)
      else Ok (formattedAmount ++ ToString (prop_symbol currency))
  end.

(** The object [convertAmount] returns; [converted_symbol] is its [symbol]
    property. *)
Record ConvertedAmount : Type := mkConverted {
  amount : number;
  formatted : jsstring;
  converted_symbol : option jsstring;
  code : jsstring
}.

(** Lines 89-100: [convertAmount]. *)
Definition convertAmount (this : Config) (env : Env) (amountInBase : number)
  : Result ConvertedAmount :=
  let userCurrency := getUserCurrency this env in
  let currencyData := get_currency this userCurrency in
  match currencyData with
  | Undefined => Throw TypeError
  | _ =>
      let convertedAmount :=
        mul amountInBase (ToNumber (prop_rate currencyData)) in
      let* f := formatCurrency this convertedAmount userCurrency in
      Ok {| amount := convertedAmount;
            formatted := f;
            converted_symbol := prop_symbol currencyData;
            code := userCurrency |}
  end.

Definition two_decimals (i : nat) : regex :=
  Opt (Group i (Seq (Char DOT) (Repeat 2 Digit))).

Definition dollars_or_USD (i : nat) : regex :=
  Group i (Alt (Lit (js "dollars")) (Lit (js "USD"))).

(** [/\$\d+(\.\d{2})?/g] *)
Definition RE_DOLLAR_PRICES : RegExp :=
  mkRegExp (Seq (Char DOLLAR) (Seq (Plus Digit) (two_decimals 1))) false.

(** [/(\d+(\.\d{2})?)\s*(dollars|USD)/gi], and the same without [g]. *)
Definition RE_TEXTUAL_PRICES : RegExp :=
  mkRegExp
    (Seq (Group 1 (Seq (Plus Digit) (two_decimals 2)))
         (Seq (Star Space) (dollars_or_USD 3)))
    true.

(** [/\$(\d+(\.\d{2})?)/] *)
Definition RE_DOLLAR_PRICE : RegExp :=
  mkRegExp
    (Seq (Char DOLLAR) (Group 1 (Seq (Plus Digit) (two_decimals 2))))
    false.

(** [element.getAttribute(name)] converted to a string: [null] becomes
    ["null"]. *)
Definition attribute_string (e : Element) (attr : jsstring) : jsstring :=
  match getAttribute e attr with
  | Some v => v
  | None => js "null"
  end.

(** [parseFloat(element.getAttribute(name))] *)
Definition parseFloat_attribute (e : Element) (attr : jsstring) : number :=
  parseFloat (attribute_string e attr).

(** Lines 306-324: [updatePriceElement]. *)
Definition updatePriceElement (this : Config) (env : Env) (element : Element)
  : Result Element :=
  let basePrice := parseFloat_attribute element (js "data-price") in
  if isNaN basePrice then Ok element
  else
    let* converted := convertAmount this env basePrice in
    let originalHTML :=
      or_else (getAttribute element (js "data-original-html"))
              (innerHTML element) in
    let step1 :=
      replace_all originalHTML RE_DOLLAR_PRICES (formatted converted) in
    match get_currency this (code converted) with
    | Undefined => Throw TypeError
    | currency =>
        let updatedHTML :=
          replace_all step1 RE_TEXTUAL_PRICES
            (formatted converted ++ js " " ++ ToString (prop_name currency)) in
        Ok (setAttribute (set_innerHTML element updatedHTML)
                         (js "data-currency") (code converted))
    end.

(** Lines 327-335: [extractPriceFromText]; [None] is [null]. *)
Definition extractPriceFromText (text : jsstring) : option jsstring :=
  match str_match text RE_DOLLAR_PRICE with
  | Some priceMatch => group 1 priceMatch
  | None =>
      match str_match text RE_TEXTUAL_PRICES with
      | Some numberMatch => group 1 numberMatch
      | None => None
      end
  end.

(** [list.forEach(f)] over elements the callback updates in place: the
    elements as the loop leaves them, and the exception that ended it
    early, if any. *)
Fixpoint forEach (f : Element -> Element * option Exn) (l : list Element)
  : list Element * option Exn :=
  match l with
  | [] => ([], None)
  | e :: l' =>
      match f e with
      | (e', Some x) => (e' :: l', Some x)
      | (e', None) => let (r, x) := forEach f l' in (e' :: r, x)
      end
  end.

Definition in_place (f : Element -> Result Element) (e : Element)
  : Element * option Exn :=
  match f e with
  | Ok e' => (e', None)
  | Throw x => (e, Some x)
  end.

(** Lines 285-303: [processPageElements], on a page given by its elements
    in document order, each holding its own content.  The second loop runs
    over the elements as the first loop leaves them; this is what the two
    queries of the code give on a flat page, where no element that the scan
    writes to has a child element, before the write or after it.  On other
    pages a write replaces the elements inside the element written and
    changes the markup of those around it, which a list of elements does
    not show: what is proved of the elements after the scan is stated for
    flat pages ([flat_page]). *)
Definition processPageElements (this : Config) (env : Env)
           (document : list Element) : list Element * option Exn :=
  let first :=
    forEach (fun element =>
               if hasAttribute element (js "data-price")
               then in_place (updatePriceElement this env) element
               else (element, None))
            document in
  match first with
  | (document1, Some x) => (document1, Some x)
  | (document1, None) =>
      forEach (fun element =>
                 if (has_class element (js "price")
                     || has_class element (js "amount")
                     || has_class element (js "cost"))
                    && negb (hasAttribute element (js "data-price"))
                 then
                   match extractPriceFromText (textContent element) with
                   | Some (c :: p) =>
                       let price := c :: p in
                       let element1 :=
                         setAttribute element (js "data-price") price in
                       let element2 :=
                         setAttribute element1 (js "data-original-text")
                                      (textContent element1) in
                       in_place (updatePriceElement this env) element2
                   | _ => (element, None)
                   end
                 else (element, None))
              document1
  end.

(** The calls of [updatePriceElement] made by a callback, in order, each
    with its completion. *)
Definition Trace : Type := list (Element * Result Element).

(** Runs [updatePriceElement] on the elements in turn, as the [forEach]
    loops of the observer do: an exception ends the callback.  Each call is
    recorded on the element as the batch lists it, which is its state at
    the call as long as no earlier call of the batch has written to the
    page; so it is up to the first call that writes, and throughout a
    callback that throws. *)
Fixpoint update_each (this : Config) (env : Env) (targets : list Element)
  : Trace * option Exn :=
  match targets with
  | [] => ([], None)
  | e :: rest =>
      match updatePriceElement this env e with
      | Throw x => ([(e, Throw x)], Some x)
      | Ok e' =>
          let (t, x) := update_each this env rest in ((e, Ok e') :: t, x)
      end
  end.

(** Lines 341-351: the elements a batch of mutation records leads the
    observer to, in the order of its loops. *)
Definition observer_targets (mutations : list MutationRecord) : list Element :=
  flat_map (fun mutation =>
    flat_map (fun node =>
      match node with
      | ElementNode e _ =>
          if hasAttribute e (js "data-price") then [e]
          else querySelectorAll_data_price node
      | TextNode _ => []
      end) (addedNodes mutation)) mutations.

(** Lines 339-353: the callback [setupMutationObserver] installs on
    [document.body], run on a batch of mutation records. *)
Definition observer_callback (this : Config) (env : Env)
           (mutations : list MutationRecord) : Trace * option Exn :=
  update_each this env (observer_targets mutations).

(** Lines 157-169: [checkAndShowPopup]; whether it arms the timer that
    shows the popup. *)
Definition checkAndShowPopup (this : Config) (env : Env) : bool :=
  let isFirstTime :=
    negb (truthy (getItem (localStorage env) (js "currencyPopupShown"))) in
  let isLoggedIn := checkIfUserIsLoggedIn env in
  let hasCurrency := getItem (localStorage env) (storageKey this) in
  isFirstTime && negb (truthy hasCurrency) && isLoggedIn.

(** Lines 164-167: what the callback of that timer leaves in storage, once
    it has shown the popup. *)
Definition popup_timeout (env : Env) : Env :=
  mkEnv (setItem (localStorage env) (js "currencyPopupShown") (js "true"))
        (sessionStorage env) (cookie env) (dispatched env) (console env).


(* ===================================================================== *)
(** ** Reference definitions *)
(* ===================================================================== *)

(** What is read off a completion of [updatePriceElement]. *)
Definition content (r : Result Element) : option jsstring :=
  match r with
  | Ok e => Some (innerHTML e)
  | Throw _ => None
  end.

Definition applied_currency (r : Result Element) : option jsstring :=
  match r with
  | Ok e => getAttribute e (js "data-currency")
  | Throw _ => None
  end.

(** Environments and elements of the examples. *)
Definition no_preference : Env := mkEnv ∅ ∅ [] [] [].

Definition preference (currencyCode : jsstring) : Env :=
  mkEnv {[ storageKey CurrencyConfig := currencyCode ]} ∅ [] [] [].

Definition price_element (price html : jsstring) : Element :=
  mkElement {[ js "data-price" := price ]} html.

(** The resolution the specification describes: the session-scoped value
    when one is set, else the persisted one, else the default. *)
Definition session_over_persisted (this : Config) (env : Env) : jsstring :=
  match getItem (sessionStorage env) (storageKey this) with
  | Some c => c
  | None =>
      match getItem (localStorage env) (storageKey this) with
      | Some c => c
      | None => defaultCurrency this
      end
  end.

(** A valid non-negative decimal numeral, as the specification has it for
    [extractFromAttribute]: digits, with an optional fraction. *)
Definition non_negative_numeral (s : jsstring) : bool :=
  let (ip, r) := span is_digit s in
  match ip, r with
  | _ :: _, [] => true
  | _ :: _, c :: f =>
      (c =? DOT)%N
      && match span is_digit f with
         | (_ :: _, []) => true
         | _ => false
         end
  | [], _ => false
  end.

(** Whether a text, after its leading white space and an optional sign,
    begins with [Infinity], a digit, or a point and a digit: the texts
    [parseFloat] finds a numeral at the head of. *)
Definition numeric_prefix (s : jsstring) : bool :=
  let t := trim_start s in
  let t1 :=
    match t with
    | c :: r => if ((c =? PLUS) || (c =? MINUS))%N then r else t
    | [] => t
    end in
  match strip_prefix (js "Infinity") t1 with
  | Some _ => true
  | None =>
      match t1 with
      | c :: r =>
          is_digit c
          || ((c =? DOT)%N
              && match r with d :: _ => is_digit d | [] => false end)
      | [] => false
      end
  end.

(** The recognition contract of the specification: an element is
    price-bearing if it carries a base-amount attribute or its text matches
    the extraction heuristics. *)
Definition price_bearing (e : Element) : bool :=
  hasAttribute e (js "data-price")
  || bool_decide (is_Some (extractPriceFromText (textContent e))).

(** The elements of a trace: those [updatePriceElement] was called on. *)
Definition synchronized (t : Trace * option Exn) : list Element :=
  map fst (fst t).

(** *** The formatter *)








(** *** The extractor *)

(** A numeral at the head of a text: digits and an optional fraction of
    two decimals; with the text that follows it. *)
Definition numeral_prefix (s : jsstring) : option (jsstring * jsstring) :=
  match span is_digit s with
  | ([], _) => None
  | (ds, c :: d1 :: d2 :: r) =>
      if (c =? DOT)%N && is_digit d1 && is_digit d2
      then Some (ds ++ [c; d1; d2], r)
      else Some (ds, c :: d1 :: d2 :: r)
  | (ds, r) => Some (ds, r)
  end.

(** Pattern (a): the base currency symbol and a numeral, at the head of
    a text. *)
Definition symbol_numeral (s : jsstring) : option jsstring :=
  match s with
  | c :: s' => if (c =? DOLLAR)%N then fst <$> numeral_prefix s' else None
  | [] => None
  end.

(** The text begins with the word, whatever the case of its letters. *)
Fixpoint starts_with_ci (w s : jsstring) : bool :=
  match w, s with
  | [], _ => true
  | x :: w', y :: s' =>
      (canonicalize x =? canonicalize y)%N && starts_with_ci w' s'
  | _ :: _, [] => false
  end.

Definition currency_word (s : jsstring) : bool :=
  starts_with_ci (js "dollars") s || starts_with_ci (js "USD") s.

(** Pattern (b): a numeral, optional white space and a currency word, at
    the head of a text. *)
Definition word_numeral (s : jsstring) : option jsstring :=
  match numeral_prefix s with
  | Some (n, r) =>
      if currency_word (snd (span is_space r)) then Some n else None
  | None => None
  end.

(** The numeral of the leftmost position of a text at which a pattern is
    found. *)
Fixpoint first_match (f : jsstring -> option jsstring) (s : jsstring)
  : option jsstring :=
  match f s with
  | Some n => Some n
  | None =>
      match s with
      | [] => None
      | _ :: s' => first_match f s'
      end
  end.

(** Either pattern, at the head of a text: one left-to-right scan for
    this is what the specification describes. *)
Definition either_numeral (s : jsstring) : option jsstring :=
  match symbol_numeral s with
  | Some n => Some n
  | None => word_numeral s
  end.

(* ===================================================================== *)
(** ** Auxiliary definitions for the matcher *)
(* ===================================================================== *)

(** A greedy run over a character class: the continuation is tried after
    the longest run first, then after shorter ones. *)
Fixpoint greedy (f : N -> bool) (k : continuation) (bef aft : jsstring)
         (caps : list (option jsstring)) : option state :=
  match aft with
  | c :: tl =>
      if f c then
        match greedy f k (c :: bef) tl caps with
        | Some z => Some z
        | None => k (State bef aft caps)
        end
      else k (State bef aft caps)
  | [] => k (State bef aft caps)
  end.

(** The matcher of one character of a class. *)
Definition class_matcher (f : N -> bool) : matcher :=
  fun x k =>
    match after x with
    | c :: tl => if f c then k (consume c x tl) else None
    | [] => None
    end.

(** [clear] for an atom without groups. *)
Definition keep : state -> state :=
  fun x => State (before x) (after x) (captures x).

(** Exactly [n] characters of a class. *)
Fixpoint exactly (f : N -> bool) (n : nat) (k : continuation)
         (bef aft : jsstring) (caps : list (option jsstring)) : option state :=
  match n with
  | O => k (State bef aft caps)
  | S n' =>
      match aft with
      | c :: tl => if f c then exactly f n' k (c :: bef) tl caps else None
      | [] => None
      end
  end.

(** The state after the longest run of a class. *)
Definition run_end (f : N -> bool) (bef aft : jsstring)
           (caps : list (option jsstring)) : state :=
  State (rev (fst (span f aft)) ++ bef) (snd (span f aft)) caps.










(* ===================================================================== *)
(** ** Definitions for the page scan and the further properties *)
(* ===================================================================== *)

(** A binary64 value in its canonical representation. *)
Definition valid_number (x : number) : bool := valid_binary prec emax x.

(** The Number [1], the rate of the base currency. *)
Definition one : number := S754_finite false 4503599627370496 (-52).

(** [NaN], [Infinity] and [-Infinity]. *)
Definition non_finite (x : number) : bool :=
  match x with
  | S754_nan | S754_infinity _ => true
  | _ => false
  end.

(** A number placed by a currency: symbol first for ["before"]. *)
Definition placed (c : Currency) (num : jsstring) : jsstring :=
  if bool_decide (position c = js "before")
  then symbol c ++ num else num ++ symbol c.

(** The markup [updatePriceElement] rewrites. *)
Definition originalHTML (e : Element) : jsstring :=
  or_else (getAttribute e (js "data-original-html")) (innerHTML e).

(** A numeral: digits, or digits, a point and two digits. *)
Definition plain_numeral (n : jsstring) : Prop :=
  exists d ds,
    forallb is_digit (d :: ds) = true
    /\ (n = d :: ds
        \/ exists d1 d2, is_digit d1 = true /\ is_digit d2 = true
                         /\ n = (d :: ds) ++ [DOT; d1; d2]).

(** Lines 287-289: the callback of the first loop of
    [processPageElements]. *)
Definition scan_attribute (this : Config) (env : Env) (element : Element)
  : Element * option Exn :=
  if hasAttribute element (js "data-price")
  then in_place (updatePriceElement this env) element
  else (element, None).

(** The selector [.price, .amount, .cost]. *)
Definition price_class (e : Element) : bool :=
  has_class e (js "price") || has_class e (js "amount")
  || has_class e (js "cost").

(** Lines 292-302: the callback of the second loop of
    [processPageElements]. *)
Definition scan_text (this : Config) (env : Env) (element : Element)
  : Element * option Exn :=
  if price_class element && negb (hasAttribute element (js "data-price"))
  then
    match extractPriceFromText (textContent element) with
    | Some (c :: p) =>
        let price := c :: p in
        let element1 := setAttribute element (js "data-price") price in
        let element2 :=
          setAttribute element1 (js "data-original-text")
                       (textContent element1) in
        in_place (updatePriceElement this env) element2
    | _ => (element, None)
    end
  else (element, None).

(** An element whose price attribute [parseFloat] reads. *)
Definition numeric_price (e : Element) : bool :=
  numeric_prefix (attribute_string e (js "data-price")).

(** An element of a price class, without price attribute, in the text of
    which [extractPriceFromText] finds a price. *)
Definition text_price (e : Element) : bool :=
  price_class e && negb (hasAttribute e (js "data-price"))
  && bool_decide (is_Some (extractPriceFromText (textContent e))).

(** The elements [processPageElements] converts. *)
Definition convertible (e : Element) : bool :=
  numeric_price e || text_price e.

(** The element the second loop passes to [updatePriceElement]. *)
Definition annotated (e : Element) (price : jsstring) : Element :=
  setAttribute (setAttribute e (js "data-price") price)
               (js "data-original-text") (textContent e).

(** Markup without tag: the content it stands for has no element. *)
Definition tag_free (html : jsstring) : bool := negb (includes (js "<") html).

(** The elements the page scan looks into: those with a price attribute
    and those in the text of which it finds a price. *)
Definition scanned (e : Element) : bool :=
  hasAttribute e (js "data-price") || text_price e.

(** A flat page: no element the scan looks into has a child element. *)
Definition flat_page (document : list Element) : Prop :=
  Forall (fun e => scanned e = true -> tag_free (innerHTML e) = true)
         document.

(** An element of the examples, with a [class] attribute only. *)
Definition class_element (class html : jsstring) : Element :=
  mkElement {[ js "class" := class ]} html.

(* ===================================================================== *)
(** ** Facts about numbers *)
(* ===================================================================== *)

(** The sign of a numeral, and what follows it. *)
Lemma sign_split (c : N) (r : jsstring) :
  (if (c =? PLUS)%N then (false, r)
   else if (c =? MINUS)%N then (true, r) else (false, c :: r))
  = ((c =? MINUS)%N, if ((c =? PLUS) || (c =? MINUS))%N then r else c :: r).
Proof.
  destruct (c =? PLUS)%N eqn:E1; destruct (c =? MINUS)%N eqn:E2; cbn;
    try reflexivity.
  apply N.eqb_eq in E1, E2. subst. discriminate.
Qed.

(** Without a numeral at its head, a text parses to [NaN]. *)
Lemma numeric_prefix_false_NaN s :
  numeric_prefix s = false -> parseFloat s = NaN.
Proof.
  unfold numeric_prefix, parseFloat. cbv zeta.
  generalize (trim_start s). intros [|c r].
  - intros _. reflexivity.
  - rewrite sign_split. cbv beta iota.
    generalize (c =? MINUS)%N. intros neg.
    match goal with |- context [strip_prefix _ ?t] => generalize t end.
    intros t1.
    destruct (strip_prefix (js "Infinity") t1); [intros H; discriminate H|].
    destruct t1 as [|c1 r1]; [reflexivity|].
    intros H. apply orb_false_iff in H as [Hd Hdot].
    cbn [span]. rewrite Hd.
    destruct (c1 =? DOT)%N; [|reflexivity].
    cbn in Hdot. destruct r1 as [|d r2]; [reflexivity|].
    cbn [span]. rewrite Hdot. reflexivity.
Qed.

(** Rounding keeps a mantissa non-negative, so that the quotient of two
    positive integers is never rounded to [NaN]. *)
Lemma shr_1_nonneg mrs : (0 <= shr_m mrs)%Z -> (0 <= shr_m (shr_1 mrs))%Z.
Proof.
  destruct mrs as [mm r s]. cbn.
  destruct mm as [|[p|p|]|[p|p|]]; cbn; lia.
Qed.

Lemma iter_shr_1_nonneg p : forall mrs,
  (0 <= shr_m mrs)%Z -> (0 <= shr_m (SpecFloat.iter_pos shr_1 p mrs))%Z.
Proof.
  induction p as [p IH|p IH|]; intros mrs H; cbn.
  - apply IH, IH, shr_1_nonneg, H.
  - apply IH, IH, H.
  - apply shr_1_nonneg, H.
Qed.

Lemma shr_fexp_nonneg mm e l :
  (0 <= mm)%Z -> (0 <= shr_m (fst (shr_fexp prec emax mm e l)))%Z.
Proof.
  intros H. unfold shr_fexp, shr.
  assert (H0 : (0 <= shr_m (shr_record_of_loc mm l))%Z).
  { destruct l as [|[]]; cbn; exact H. }
  destruct (_ - e)%Z; cbn; try exact H0.
  apply iter_shr_1_nonneg, H0.
Qed.

Lemma binary_round_aux_not_NaN s mm e l :
  (0 <= mm)%Z -> isNaN (binary_round_aux prec emax s mm e l) = false.
Proof.
  intros H. unfold binary_round_aux.
  pose proof (shr_fexp_nonneg mm e l H) as H1.
  destruct (shr_fexp prec emax mm e l) as [mrs' e']. cbn [fst] in H1.
  assert (H2 : (0 <= round_nearest_even (shr_m mrs')
                                        (loc_of_shr_record mrs'))%Z).
  { unfold round_nearest_even. destruct (loc_of_shr_record mrs') as [|[]];
      try destruct (Z.even _); lia. }
  pose proof (shr_fexp_nonneg _ e' loc_Exact H2) as H3.
  destruct (shr_fexp prec emax _ e' loc_Exact) as [mrs'' e'']. cbn [fst] in H3.
  destruct (shr_m mrs''); try reflexivity; try lia.
  destruct (_ <=? _)%Z; reflexivity.
Qed.

Lemma of_ratio_not_NaN neg n d : isNaN (of_ratio neg n d) = false.
Proof.
  unfold of_ratio, SFdiv, SFdiv_core_binary.
  set (e' := Z.min _ _). set (s := (0 - 0 - e')%Z).
  set (m' := match s with
             | Z0 => Zpos n
             | Zpos _ => Z.shiftl (Zpos n) s
             | Zneg _ => 0%Z
             end).
  assert (Hm : (0 <= m')%Z).
  { unfold m'. destruct s; try lia. apply Z.shiftl_nonneg. lia. }
  pose proof (Z.div_eucl_eq m' (Zpos d) ltac:(lia)) as Hq.
  pose proof (Z_div_mod m' (Zpos d) ltac:(lia)) as Hr.
  destruct (Z.div_eucl m' (Zpos d)) as [q r].
  apply binary_round_aux_not_NaN. nia.
Qed.

Lemma of_decimal_not_NaN neg ds e : isNaN (of_decimal neg ds e) = false.
Proof.
  unfold of_decimal. destruct ds; [reflexivity|].
  destruct e; apply of_ratio_not_NaN.
Qed.

(** With a numeral at its head, a text parses to a number. *)
Lemma numeric_prefix_true_number s :
  numeric_prefix s = true -> isNaN (parseFloat s) = false.
Proof.
  unfold numeric_prefix, parseFloat. cbv zeta.
  generalize (trim_start s). intros [|c r].
  - intros H; discriminate H.
  - rewrite sign_split. cbv beta iota.
    generalize (c =? MINUS)%N. intros neg.
    match goal with |- context [strip_prefix _ ?t] => generalize t end.
    intros t1.
    destruct (strip_prefix (js "Infinity") t1); [reflexivity|].
    destruct t1 as [|c1 r1]; [intros H; discriminate H|].
    intros H. cbn [span].
    destruct (is_digit c1) eqn:Hd.
    + destruct (span is_digit r1) as [ip r1'].
      destruct (match r1' with [] => _ | _ => _ end) as [[dot fp] r2].
      apply of_decimal_not_NaN.
    + cbn in H. destruct (c1 =? DOT)%N; [|discriminate H].
      destruct r1 as [|d r2]; [discriminate H|].
      cbn in H. cbn [span]. rewrite H.
      destruct (span is_digit r2) as [fp r3].
      apply of_decimal_not_NaN.
Qed.

(** [parseFloat] gives [NaN] exactly on the texts without a numeral at
    their head. *)
Lemma parseFloat_NaN s : isNaN (parseFloat s) = negb (numeric_prefix s).
Proof.
  destruct (numeric_prefix s) eqn:E.
  - apply numeric_prefix_true_number, E.
  - rewrite (numeric_prefix_false_NaN s E). reflexivity.
Qed.













(* ===================================================================== *)
(** ** Facts about the matcher *)
(* ===================================================================== *)

(** Lists and runs of a character class. *)
Lemma length_neq_cons {A} (c : A) (l : list A) :
  Nat.eqb (length l) (length (c :: l)) = false.
Proof. apply Nat.eqb_neq. cbn. lia. Qed.

Lemma length_neq_app {A} (p r : list A) :
  p <> [] -> Nat.eqb (length r) (length (p ++ r)) = false.
Proof.
  intros H. apply Nat.eqb_neq. rewrite length_app.
  destruct p; [congruence|cbn; lia].
Qed.

Lemma firstn_length_diff {A} (p r : list A) :
  firstn (length (p ++ r) - length r) (p ++ r) = p.
Proof.
  rewrite length_app.
  replace (length p + length r - length r) with (length p) by lia.
  rewrite firstn_app, Nat.sub_diag, firstn_all. cbn. apply app_nil_r.
Qed.

Lemma span_app f s : fst (span f s) ++ snd (span f s) = s.
Proof.
  induction s as [|c s IH]; [reflexivity|].
  cbn. destruct (f c); [|reflexivity].
  destruct (span f s) as [a b]. cbn in *. congruence.
Qed.

Lemma span_cons_true f c s :
  f c = true -> span f (c :: s) = (c :: fst (span f s), snd (span f s)).
Proof. intros H. cbn. rewrite H. destruct (span f s); reflexivity. Qed.

Lemma span_cons_false f c s : f c = false -> span f (c :: s) = ([], c :: s).
Proof. intros H. cbn. rewrite H. reflexivity. Qed.

Lemma span_rest_head f s c r : snd (span f s) = c :: r -> f c = false.
Proof.
  induction s as [|x s IH]; [discriminate|].
  destruct (f x) eqn:E.
  - rewrite span_cons_true by exact E. exact IH.
  - rewrite span_cons_false by exact E. cbn. intros [= <- _]. exact E.
Qed.




Lemma digit_not_dot c : is_digit c = true -> (c =? DOT)%N = false.
Proof.
  unfold is_digit, DOT. intros H. apply andb_true_iff in H as [H1 H2].
  apply N.leb_le in H1, H2. apply N.eqb_neq. lia.
Qed.

Lemma digit_not_space c : is_digit c = true -> is_space c = false.
Proof.
  unfold is_digit. intros H. apply andb_true_iff in H as [H1 H2].
  apply N.leb_le in H1, H2. unfold is_space.
  repeat match goal with
         | |- context [(c =? ?n)%N] =>
             replace (c =? n)%N with false by (symmetry; apply N.eqb_neq; lia)
         end.
  replace (8192 <=? c)%N with false by (symmetry; apply N.leb_gt; lia).
  reflexivity.
Qed.

(** The equations of the matcher, for rewriting. *)
Lemma repeat_matcher_done ma clr k fuel min x :
  repeat_matcher ma clr k fuel min (Some 0) x = k x.
Proof. destruct fuel; reflexivity. Qed.

Lemma repeat_matcher_more ma clr k fuel min max x :
  max <> Some 0 ->
  repeat_matcher ma clr k (S fuel) (S min) max x =
  ma (clr x)
     (fun y => repeat_matcher ma clr k fuel min (option_map pred max) y).
Proof. intros H. destruct max as [[|n]|]; [congruence|reflexivity..]. Qed.

Lemma repeat_matcher_try ma clr k fuel max x :
  max <> Some 0 ->
  repeat_matcher ma clr k (S fuel) 0 max x =
  match
    ma (clr x)
       (fun y =>
          if Nat.eqb (length (after y)) (length (after x)) then None
          else repeat_matcher ma clr k fuel 0 (option_map pred max) y)
  with
  | Some z => Some z
  | None => k x
  end.
Proof. intros H. destruct max as [[|n]|]; [congruence|reflexivity..]. Qed.

Lemma m_quant ic min max a x k :
  m ic (Quant min max a) x k =
  repeat_matcher (m ic a) (clear a) k (min + length (after x)) min max x.
Proof. reflexivity. Qed.

Lemma m_seq ic a b x k : m ic (Seq a b) x k = m ic a x (fun y => m ic b y k).
Proof. reflexivity. Qed.

Lemma m_group ic i a x k :
  m ic (Group i a) x k =
  m ic a x (fun y =>
    k (State (before y) (after y)
         (<[pred i := Some (firstn (length (after x) - length (after y))
                                   (after x))]> (captures y)))).
Proof. reflexivity. Qed.

Lemma m_alt ic a b x k :
  m ic (Alt a b) x k =
  match m ic a x k with
  | Some z => Some z
  | None => m ic b x k
  end.
Proof. reflexivity. Qed.


Lemma m_char ic c bef aft caps k :
  m ic (Char c) (State bef aft caps) k =
  match aft with
  | c' :: tl =>
      if (if ic then canonicalize c =? canonicalize c' else c =? c')%N
      then k (State (c' :: bef) tl caps) else None
  | [] => None
  end.
Proof. reflexivity. Qed.

(** [a*] and [a+] on a character class try the longest run first. *)
Lemma star_class f k : forall fuel bef aft caps,
  length aft <= fuel ->
  repeat_matcher (class_matcher f) keep k fuel 0 None (State bef aft caps)
  = greedy f k bef aft caps.
Proof.
  induction fuel as [|fuel IH]; intros bef aft caps Hlen.
  - destruct aft; [reflexivity|cbn in Hlen; lia].
  - destruct aft as [|c tl]; [reflexivity|].
    cbn [repeat_matcher greedy]. unfold class_matcher at 1.
    cbn [after keep before captures].
    destruct (f c); [|reflexivity].
    cbn [consume before captures after andb Nat.eqb].
    rewrite length_neq_cons. cbn [pred option_map].
    change (consume c (keep (State bef (c :: tl) caps)) tl)
      with (State (c :: bef) tl caps).
    rewrite IH by (cbn in Hlen; lia). reflexivity.
Qed.

Lemma m_star_digit ic bef aft caps k :
  m ic (Star Digit) (State bef aft caps) k = greedy is_digit k bef aft caps.
Proof. apply (star_class is_digit k). cbn. lia. Qed.

Lemma m_star_space ic bef aft caps k :
  m ic (Star Space) (State bef aft caps) k = greedy is_space k bef aft caps.
Proof. apply (star_class is_space k). cbn. lia. Qed.

Lemma m_plus_digit ic bef aft caps k :
  m ic (Plus Digit) (State bef aft caps) k =
  match aft with
  | c :: tl => if is_digit c then greedy is_digit k (c :: bef) tl caps else None
  | [] => None
  end.
Proof.
  unfold Plus. cbn [m after Nat.add repeat_matcher].
  destruct aft as [|c tl]; [reflexivity|].
  cbn [clear groups fold_right after before captures].
  destruct (is_digit c); [|reflexivity].
  cbn [Nat.eqb andb pred option_map].
  apply (star_class is_digit k). cbn. lia.
Qed.

Section GreedyRun.

Variable f : N -> bool.
Variable k : continuation.

Lemma run_end_cons bef c tl caps :
  f c = true -> run_end f bef (c :: tl) caps = run_end f (c :: bef) tl caps.
Proof.
  intros H. unfold run_end. rewrite span_cons_true by exact H.
  cbn [fst snd rev]. rewrite <- app_assoc. reflexivity.
Qed.

Lemma run_end_stop bef c tl caps :
  f c = false -> run_end f bef (c :: tl) caps = State bef (c :: tl) caps.
Proof.
  intros H. unfold run_end. rewrite span_cons_false by exact H. reflexivity.
Qed.

(** A greedy run ends at the end of the longest run when the continuation
    accepts there, or when it cannot accept before a character of the
    class. *)
Lemma greedy_end_some z : forall aft bef caps,
  k (run_end f bef aft caps) = Some z -> greedy f k bef aft caps = Some z.
Proof.
  induction aft as [|c tl IH]; intros bef caps H; [exact H|].
  cbn [greedy]. destruct (f c) eqn:E.
  - rewrite run_end_cons in H by exact E. rewrite (IH _ _ H). reflexivity.
  - rewrite run_end_stop in H by exact E. exact H.
Qed.

Lemma greedy_end caps :
  (forall b c tl, f c = true -> k (State b (c :: tl) caps) = None) ->
  forall aft bef, greedy f k bef aft caps = k (run_end f bef aft caps).
Proof.
  intros Hk. induction aft as [|c tl IH]; intros bef; [reflexivity|].
  cbn [greedy]. destruct (f c) eqn:E.
  - rewrite run_end_cons by exact E. rewrite IH.
    destruct (k (run_end f (c :: bef) tl caps)); [reflexivity|].
    apply Hk, E.
  - rewrite run_end_stop by exact E. reflexivity.
Qed.

End GreedyRun.

(** [a{n}] on a character class takes [n] characters of it. *)
Lemma repeat_exactly f k : forall n fuel bef aft caps,
  n <= fuel ->
  repeat_matcher (class_matcher f) keep k fuel n (Some n) (State bef aft caps)
  = exactly f n k bef aft caps.
Proof.
  induction n as [|n IH]; intros fuel bef aft caps Hn.
  - apply repeat_matcher_done.
  - destruct fuel as [|fuel]; [lia|].
    rewrite repeat_matcher_more by discriminate.
    unfold class_matcher at 1. cbn [keep after before captures exactly].
    destruct aft as [|c tl]; [reflexivity|].
    destruct (f c); [|reflexivity].
    cbn [option_map pred].
    apply (IH fuel (c :: bef) tl caps). lia.
Qed.

Lemma m_repeat_digit ic n bef aft caps k :
  m ic (Repeat n Digit) (State bef aft caps) k
  = exactly is_digit n k bef aft caps.
Proof.
  unfold Repeat. rewrite m_quant.
  apply (repeat_exactly is_digit k). lia.
Qed.


(** [\.] matches a point, with or without the [i] flag. *)
Lemma char_eq_dot (ic : bool) (c : N) :
  (if ic then canonicalize DOT =? canonicalize c else DOT =? c)%N
  = (c =? DOT)%N.
Proof.
  rewrite (N.eqb_sym c DOT). destruct ic; [|reflexivity].
  change (canonicalize DOT) with 46%N. unfold canonicalize, DOT.
  destruct ((97 <=? c)%N && (c <=? 122)%N) eqn:E.
  - apply andb_true_iff in E as [E1 E2].
    apply N.leb_le in E1, E2.
    destruct (46 =? c)%N eqn:E3; [apply N.eqb_eq in E3; lia|].
    apply N.eqb_neq. lia.
  - reflexivity.
Qed.

(** [(\.\d{2})?] takes a point and two digits when they are there and
    the continuation accepts after them; it takes nothing otherwise. *)
Lemma m_two_decimals ic i bef aft caps k :
  m ic (two_decimals i) (State bef aft caps) k =
  match aft with
  | c :: d1 :: d2 :: r =>
      if (c =? DOT)%N && is_digit d1 && is_digit d2 then
        match k (State (d2 :: d1 :: c :: bef) r
                   (<[pred i := Some [c; d1; d2]]> (<[pred i := None]> caps)))
        with
        | Some z => Some z
        | None => k (State bef aft caps)
        end
      else k (State bef aft caps)
  | _ => k (State bef aft caps)
  end.
Proof.
  unfold two_decimals, Opt. rewrite m_quant.
  destruct aft as [|c aft1]; [reflexivity|].
  change (0 + length (after (State bef (c :: aft1) caps)))
    with (S (length aft1)).
  rewrite repeat_matcher_try by discriminate.
  rewrite m_group, m_seq.
  change (clear _ (State bef (c :: aft1) caps))
    with (State bef (c :: aft1) (<[pred i := None]> caps)).
  rewrite m_char, char_eq_dot.
  destruct (c =? DOT)%N;
    [|destruct aft1 as [|d1 [|d2 r]]; reflexivity].
  rewrite m_repeat_digit.
  destruct aft1 as [|d1 [|d2 r]]; cbn [exactly andb]; try reflexivity.
  - destruct (is_digit d1); reflexivity.
  - destruct (is_digit d1); [|reflexivity].
    destruct (is_digit d2); [|reflexivity].
    cbn [after before captures andb].
    change (c :: d1 :: d2 :: r) with ([c; d1; d2] ++ r).
    rewrite (length_neq_app [c; d1; d2] r) by discriminate.
    rewrite (firstn_length_diff [c; d1; d2] r).
    cbn [option_map pred]. rewrite repeat_matcher_done.
    reflexivity.
Qed.

(** A literal under the [i] flag. *)
Lemma m_lit_ci w : forall bef aft caps k,
  m true (Lit w) (State bef aft caps) k =
  if starts_with_ci w aft
  then k (State (rev (firstn (length w) aft) ++ bef)
                (skipn (length w) aft) caps)
  else None.
Proof.
  induction w as [|c w IH]; intros bef aft caps k; [reflexivity|].
  assert (Hstep : m true (Lit (c :: w)) (State bef aft caps) k
                  = m true (Char c) (State bef aft caps)
                      (fun y => m true (Lit w) y k)).
  { destruct w; reflexivity. }
  rewrite Hstep, m_char. cbn [starts_with_ci].
  destruct aft as [|y tl]; [reflexivity|].
  destruct (canonicalize c =? canonicalize y)%N; [|reflexivity].
  cbn [andb]. rewrite IH.
  destruct (starts_with_ci w tl); [|reflexivity].
  cbn [length firstn skipn rev]. rewrite <- app_assoc. reflexivity.
Qed.

(* ===================================================================== *)
(** ** The extractor *)
(* ===================================================================== *)

(** Reads a capture that is the part of the text [Hs] splits off. *)
Ltac read_capture Hs :=
  unfold group, result_at; cbn [groups_of captures after pred];
  rewrite Hs at 1 2; rewrite firstn_length_diff; reflexivity.

(** Takes the longest run of digits up, the continuation accepting there. *)
Ltac run_to_end Hend :=
  apply greedy_end_some; rewrite Hend, m_two_decimals;
  repeat match goal with
         | H : _ && _ && _ = _ |- _ => rewrite H
         end;
  reflexivity.

(** [RE_DOLLAR_PRICE] at a position finds [symbol_numeral]. *)
Lemma match_at_dollar_price bef aft :
  match symbol_numeral aft with
  | Some n =>
      exists e, match_at RE_DOLLAR_PRICE bef aft = Some e
                /\ group 1 (result_at bef aft e) = Some n
  | None => match_at RE_DOLLAR_PRICE bef aft = None
  end.
Proof.
  unfold match_at, RE_DOLLAR_PRICE.
  cbn [pattern ignoreCase].
  change (replicate _ None) with [@None jsstring; None].
  rewrite m_seq, m_char.
  destruct aft as [|c s]; [reflexivity|].
  cbn [symbol_numeral]. rewrite (N.eqb_sym DOLLAR c).
  destruct (c =? DOLLAR)%N; [|reflexivity].
  rewrite m_group, m_seq, m_plus_digit.
  cbn [after before captures].
  unfold numeral_prefix.
  destruct s as [|d tl]; [reflexivity|].
  destruct (is_digit d) eqn:Hd;
    [|rewrite span_cons_false by exact Hd; reflexivity].
  rewrite span_cons_true by exact Hd.
  pose proof (span_app is_digit tl) as Happ.
  set (ds := fst (span is_digit tl)) in *.
  set (r := snd (span is_digit tl)) in *.
  assert (Hend : run_end is_digit (d :: c :: bef) tl [None; None]
                 = State (rev ds ++ d :: c :: bef) r [None; None])
    by reflexivity.
  assert (Hs : d :: tl = (d :: ds) ++ r) by (cbn; congruence).
  destruct r as [|c' [|d1 [|d2 r']]] eqn:Hr.
  1-3: eexists; split; [run_to_end Hend|read_capture Hs].
  destruct ((c' =? DOT)%N && is_digit d1 && is_digit d2) eqn:Hf.
  - assert (Hs' : d :: tl = (d :: ds ++ [c'; d1; d2]) ++ r')
      by (rewrite Hs; cbn; rewrite <- app_assoc; reflexivity).
    eexists; split; [run_to_end Hend|read_capture Hs'].
  - eexists; split; [run_to_end Hend|read_capture Hs].
Qed.

Lemma currency_word_head c s :
  currency_word (c :: s) = true ->
  is_digit c = false /\ is_space c = false /\ (c =? DOT)%N = false.
Proof.
  unfold currency_word. cbn [js list_ascii_of_string map starts_with_ci].
  intros H.
  assert (Hc : (canonicalize c = 68 \/ canonicalize c = 85)%N).
  { apply orb_true_iff in H as [H|H]; apply andb_true_iff in H as [H _];
      apply N.eqb_eq in H; [left|right]; rewrite <- H; reflexivity. }
  assert (Hc' : (c = 68 \/ c = 100 \/ c = 85 \/ c = 117)%N).
  { revert Hc. unfold canonicalize.
    destruct ((97 <=? c)%N && (c <=? 122)%N) eqn:E; [|lia].
    apply andb_true_iff in E as [E1 E2]. apply N.leb_le in E1, E2. lia. }
  destruct Hc' as [-> | [-> | [-> | ->]]]; repeat split; reflexivity.
Qed.

Lemma currency_word_fails b c tl caps k :
  is_digit c = true \/ is_space c = true \/ (c =? DOT)%N = true ->
  m true (dollars_or_USD 3) (State b (c :: tl) caps) k = None.
Proof.
  intros H. unfold dollars_or_USD. rewrite m_group, m_alt, !m_lit_ci.
  destruct (currency_word (c :: tl)) eqn:E.
  - apply currency_word_head in E as (E1 & E2 & E3).
    destruct H as [H|[H|H]]; congruence.
  - unfold currency_word in E. apply orb_false_iff in E as [-> ->]. reflexivity.
Qed.

Lemma textual_tail b r caps :
  if currency_word (snd (span is_space r))
  then exists e w, m true (Seq (Star Space) (dollars_or_USD 3))
                     (State b r caps) Some = Some e
                   /\ captures e = <[2 := w]> caps
  else m true (Seq (Star Space) (dollars_or_USD 3)) (State b r caps) Some
       = None.
Proof.
  rewrite m_seq, m_star_space.
  rewrite greedy_end
    by (intros; apply currency_word_fails; right; left; assumption).
  unfold run_end. generalize (rev (fst (span is_space r)) ++ b).
  generalize (snd (span is_space r)). clear. intros r b.
  unfold dollars_or_USD, currency_word. rewrite m_group, m_alt, !m_lit_ci.
  destruct (starts_with_ci (js "dollars") r); cbn [orb].
  - eexists _, _. split; reflexivity.
  - destruct (starts_with_ci (js "USD") r).
    + eexists _, _. split; reflexivity.
    + reflexivity.
Qed.

Lemma textual_tail_none b c tl caps :
  is_digit c = true \/ (c =? DOT)%N = true ->
  m true (Seq (Star Space) (dollars_or_USD 3)) (State b (c :: tl) caps) Some
  = None.
Proof.
  intros H. rewrite m_seq, m_star_space.
  assert (Hs : is_space c = false).
  { destruct H as [H|H]; [apply digit_not_space, H|].
    apply N.eqb_eq in H. subst. reflexivity. }
  cbn [greedy]. rewrite Hs. apply currency_word_fails.
  destruct H; auto.
Qed.

(** [RE_TEXTUAL_PRICES] at a position finds [word_numeral]. *)
Lemma match_at_textual_prices bef aft :
  match word_numeral aft with
  | Some n =>
      exists e, match_at RE_TEXTUAL_PRICES bef aft = Some e
                /\ group 1 (result_at bef aft e) = Some n
  | None => match_at RE_TEXTUAL_PRICES bef aft = None
  end.
Proof.
  unfold match_at, RE_TEXTUAL_PRICES.
  cbn [pattern ignoreCase].
  change (replicate _ None) with [@None jsstring; None; None].
  rewrite m_seq, m_group, m_seq, m_plus_digit.
  cbn [after before captures].
  unfold word_numeral, numeral_prefix.
  destruct aft as [|d tl]; [reflexivity|].
  destruct (is_digit d) eqn:Hd;
    [|rewrite span_cons_false by exact Hd; reflexivity].
  rewrite span_cons_true by exact Hd.
  rewrite greedy_end.
  2:{ intros b c tl' Hc. rewrite m_two_decimals.
      assert (Hk : forall caps', m true (Seq (Star Space) (dollars_or_USD 3))
                     (State b (c :: tl') caps') Some = None)
        by (intros; apply textual_tail_none; left; exact Hc).
      destruct tl' as [|d1 [|d2 r']]; cbn [before after captures];
        rewrite ?(digit_not_dot c Hc); cbn [andb]; apply Hk. }
  pose proof (span_app is_digit tl) as Happ.
  unfold run_end.
  set (ds := fst (span is_digit tl)) in *.
  set (r := snd (span is_digit tl)) in *.
  assert (Hs : d :: tl = (d :: ds) ++ r) by (cbn; congruence).
  rewrite m_two_decimals.
  assert (Hplain :
    match (if currency_word (snd (span is_space r))
           then Some (d :: ds) else None) with
    | Some n =>
        exists e,
          m true (Seq (Star Space) (dollars_or_USD 3))
            (State (rev ds ++ d :: bef) r
               (<[0 := Some (firstn (length (d :: tl) - length r) (d :: tl))]>
                  [None; None; None])) Some = Some e
          /\ group 1 (result_at bef (d :: tl) e) = Some n
    | None =>
        m true (Seq (Star Space) (dollars_or_USD 3))
          (State (rev ds ++ d :: bef) r
             (<[0 := Some (firstn (length (d :: tl) - length r) (d :: tl))]>
                [None; None; None])) Some = None
    end).
  { match goal with
    | |- context [m true _ (State ?b ?r ?c) Some] =>
        pose proof (textual_tail b r c) as HT
    end.
    destruct (currency_word (snd (span is_space r))); [|exact HT].
    destruct HT as (e & w & He & Hcaps). exists e. split; [exact He|].
    unfold group, result_at. cbn [groups_of]. rewrite Hcaps.
    rewrite Hs at 1 2. rewrite firstn_length_diff. reflexivity. }
  destruct r as [|c' [|d1 [|d2 r']]] eqn:Hr; cbn [before after captures];
    try exact Hplain.
  destruct ((c' =? DOT)%N && is_digit d1 && is_digit d2) eqn:Hf;
    [|exact Hplain].
  assert (Hdot : (c' =? DOT)%N = true).
  { apply andb_true_iff in Hf as [Hf _]. apply andb_true_iff in Hf as [Hf _].
    exact Hf. }
  rewrite (textual_tail_none _ c') by (right; exact Hdot).
  match goal with
  | |- context [m true _ (State ?b ?r ?c) Some] =>
      pose proof (textual_tail b r c) as HT
  end.
  destruct (currency_word (snd (span is_space r'))).
  - destruct HT as (e & w & He & Hcaps). exists e. rewrite He.
    split; [reflexivity|].
    unfold group, result_at. cbn [groups_of]. rewrite Hcaps.
    replace (d :: tl) with ((d :: ds ++ [c'; d1; d2]) ++ r')
      by (rewrite Hs; cbn; rewrite <- app_assoc; reflexivity).
    rewrite firstn_length_diff. reflexivity.
  - rewrite HT. reflexivity.
Qed.

(** A search from the left finds the first position at which the pattern
    matches. *)
Section Exec.
Variable R : RegExp.
Variable f : jsstring -> option jsstring.
Hypothesis match_at_f : forall bef aft,
  match f aft with
  | Some n =>
      exists e, match_at R bef aft = Some e
                /\ group 1 (result_at bef aft e) = Some n
  | None => match_at R bef aft = None
  end.

Lemma exec_from_first_match : forall aft bef,
  match exec_from R bef aft with
  | Some mr => exists n, group 1 mr = Some n /\ first_match f aft = Some n
  | None => first_match f aft = None
  end.
Proof.
  induction aft as [|c tl IH]; intros bef; cbn [exec_from first_match];
    pose proof (match_at_f bef) as H.
  - specialize (H []). destruct (f []) as [n|].
    + destruct H as (e & -> & Hg). eauto.
    + rewrite H. reflexivity.
  - specialize (H (c :: tl)). destruct (f (c :: tl)) as [n|].
    + destruct H as (e & -> & Hg). eauto.
    + rewrite H. apply IH.
Qed.
End Exec.

(** C9, amended: the result is the numeral of the leftmost
    symbol-prefixed numeral of the text when one occurs anywhere in it;
    otherwise the numeral of the leftmost numeral followed by a currency
    word; otherwise [null].  The function is total, and returns the text
    of the numeral: ["42.00"], which [parseFloat] reads as 42, on
    ["Price: $42.00 today"], and [null] on ["no price here"]. *)
Theorem extractPriceFromText_symbol_first :
  (forall text,
     extractPriceFromText text =
     match first_match symbol_numeral text with
     | Some n => Some n
     | None => first_match word_numeral text
     end)
  /\ extractPriceFromText (js "Price: $42.00 today") = Some (js "42.00")
  /\ parseFloat (js "42.00") = of_decimal false 42 0
  /\ extractPriceFromText (js "no price here") = None.
Proof.
  split; [|vm_compute; repeat split].
  intros text. unfold extractPriceFromText, str_match.
  pose proof (exec_from_first_match RE_DOLLAR_PRICE symbol_numeral
                (fun bef aft => match_at_dollar_price bef aft) text []) as H1.
  pose proof (exec_from_first_match RE_TEXTUAL_PRICES word_numeral
                (fun bef aft => match_at_textual_prices bef aft) text []) as H2.
  destruct (exec_from RE_DOLLAR_PRICE [] text) as [pm|].
  - destruct H1 as (n & -> & ->). reflexivity.
  - rewrite H1.
    destruct (exec_from RE_TEXTUAL_PRICES [] text) as [nm|].
    + destruct H2 as (n & -> & ->). reflexivity.
    + rewrite H2. reflexivity.
Qed.

(** C9, the claim as stated fails: in ["10 dollars or $5"] the first match
    from the left, of either pattern, is ["10"], and the code returns
    ["5"]. *)
Lemma extractPriceFromText_not_leftmost :
  extractPriceFromText (js "10 dollars or $5") = Some (js "5")
  /\ first_match either_numeral (js "10 dollars or $5") = Some (js "10")
  /\ extractPriceFromText (js "10 dollars or $5")
     <> first_match either_numeral (js "10 dollars or $5").
Proof. vm_compute. repeat split; congruence. Qed.

(* ===================================================================== *)
(** ** The formatter *)
(* ===================================================================== *)















(** A position ["after"] puts the symbol behind the number. *)
Example formatCurrency_after :
  let this :=
    mkConfig {[ js "SEK" := mkCurrency (js "kr") (js "Swedish Krona")
                                       (of_decimal false 105 (-1))
                                       (js "after") ]}
             (js "SEK") (js "userCurrencyPreference") in
  formatCurrency this (parseFloat (js "-1234567.891")) (js "SEK")
  = Ok (js "-1,234,567.89kr").
Proof. vm_compute. reflexivity. Qed.

(** [formatCurrency] does fall back on the default currency. *)
Lemma formatCurrency_fallback (this : Config) (a : number) (c : jsstring) :
  get_currency this c = Undefined ->
  formatCurrency this a c = formatCurrency this a (defaultCurrency this).
Proof.
  intros H. unfold formatCurrency. rewrite H.
  destruct (get_currency this (defaultCurrency this)); reflexivity.
Qed.

(* ===================================================================== *)
(** ** Preference resolution and conversion *)
(* ===================================================================== *)

(** C6, the claim as stated fails: with ["EUR"] persisted and ["GBP"] in
    the session store, the code resolves ["EUR"], not the session value. *)
Lemma getUserCurrency_not_session_first :
  let env := mkEnv {[ js "userCurrencyPreference" := js "EUR" ]}
                   {[ js "userCurrencyPreference" := js "GBP" ]}
                   (js "user_session=1") [] [] in
  getUserCurrency CurrencyConfig env = js "EUR"
  /\ session_over_persisted CurrencyConfig env = js "GBP"
  /\ getUserCurrency CurrencyConfig env
     <> session_over_persisted CurrencyConfig env.
Proof. vm_compute. repeat split; congruence. Qed.

(** C6, amended: the resolved code is the persisted ([localStorage]) code
    when a non-empty one is stored; otherwise, for a logged-in user, the
    session code when a non-empty one is stored; otherwise the default
    currency code. *)
Theorem getUserCurrency_layers (this : Config) (env : Env) :
  getUserCurrency this env =
  match getItem (localStorage env) (storageKey this) with
  | Some (c :: s) => c :: s
  | _ =>
      if checkIfUserIsLoggedIn env then
        match getItem (sessionStorage env) (storageKey this) with
        | Some (c :: s) => c :: s
        | _ => defaultCurrency this
        end
      else defaultCurrency this
  end.
Proof.
  unfold getUserCurrency, or_else, truthy.
  destruct (getItem (localStorage env) (storageKey this)) as [[|c s]|];
    cbn [negb andb]; destruct (checkIfUserIsLoggedIn env); reflexivity.
Qed.

(** C3: with a preference that is not in the registry, [convertAmount]
    reads [rate] on [undefined] and throws, where [formatCurrency] falls
    back to the default currency. *)
Theorem convertAmount_unknown_code_throws :
  get_currency CurrencyConfig (js "DOES_NOT_EXIST") = Undefined
  /\ getUserCurrency CurrencyConfig (preference (js "DOES_NOT_EXIST"))
     = js "DOES_NOT_EXIST"
  /\ convertAmount CurrencyConfig (preference (js "DOES_NOT_EXIST"))
                   (parseFloat (js "100"))
     = Throw TypeError
  /\ formatCurrency CurrencyConfig (parseFloat (js "100"))
                    (js "DOES_NOT_EXIST")
     = Ok (js "$100.00").
Proof. vm_compute. repeat split. Qed.

(** [convertAmount] throws for every preference the lookup of which is
    [undefined], whatever the amount. *)
Lemma convertAmount_undefined (this : Config) (env : Env) (a : number) :
  get_currency this (getUserCurrency this env) = Undefined ->
  convertAmount this env a = Throw TypeError.
Proof. intros H. unfold convertAmount. rewrite H. reflexivity. Qed.

(** C4, the claim as stated fails: the target code is not an argument;
    the same amount converts differently under two preference stores. *)
Lemma convertAmount_reads_preference :
  convertAmount CurrencyConfig (preference (js "EUR")) (parseFloat (js "100"))
  <> convertAmount CurrencyConfig (preference (js "GBP"))
                   (parseFloat (js "100")).
Proof. vm_compute. congruence. Qed.

(** C4, amended: [convertAmount] reads the target currency through
    [getUserCurrency]; it writes nothing, and its result is determined by
    the base amount and the code the preference store resolves to. *)
Theorem convertAmount_deterministic (this : Config) (env1 env2 : Env)
        (a : number) :
  getUserCurrency this env1 = getUserCurrency this env2 ->
  convertAmount this env1 a = convertAmount this env2 a.
Proof. intros H. unfold convertAmount. rewrite H. reflexivity. Qed.

(** The same resolved code, from the persisted store and from the session
    store of a logged-in user. *)
Lemma convertAmount_deterministic_witness :
  let env1 := preference (js "EUR") in
  let env2 := mkEnv ∅ {[ js "userCurrencyPreference" := js "EUR" ]}
                    (js "a=b; user_session=1") [] [] in
  getUserCurrency CurrencyConfig env1 = getUserCurrency CurrencyConfig env2
  /\ convertAmount CurrencyConfig env1 (parseFloat (js "100"))
     = convertAmount CurrencyConfig env2 (parseFloat (js "100")).
Proof.
  split; [vm_compute; reflexivity|].
  apply convertAmount_deterministic. vm_compute. reflexivity.
Defined.

(** The fourth testable property of the specification. *)
Example convert_100_EUR :
  match convertAmount CurrencyConfig (preference (js "EUR"))
                      (parseFloat (js "100")) with
  | Ok c => amount c = parseFloat (js "85.0")
            /\ formatted c = EURO :: js "85.00"
            /\ code c = js "EUR"
  | Throw _ => False
  end.
Proof. vm_compute. repeat split. Qed.

(* ===================================================================== *)
(** ** [setUserCurrency] *)
(* ===================================================================== *)

(** C10: ["constructor"] is not a key of the registry, but the lookup
    finds [Object.prototype.constructor], which is truthy: the guard lets
    it through, the preference is written and the event dispatched. *)
Theorem setUserCurrency_inherited_key :
  let r := setUserCurrency CurrencyConfig no_preference (js "constructor") in
  currencies CurrencyConfig !! js "constructor" = None
  /\ fst r = true
  /\ getItem (localStorage (snd r)) (storageKey CurrencyConfig)
     = Some (js "constructor")
  /\ dispatched (snd r) = [js "constructor"].
Proof. vm_compute. repeat split. Qed.

(** A code the lookup of which is [undefined] is rejected, and nothing is
    written or dispatched. *)
Lemma setUserCurrency_undefined (this : Config) (env : Env) (c : jsstring) :
  get_currency this c = Undefined ->
  let r := setUserCurrency this env c in
  fst r = false
  /\ localStorage (snd r) = localStorage env
  /\ sessionStorage (snd r) = sessionStorage env
  /\ dispatched (snd r) = dispatched env.
Proof.
  intros H. unfold setUserCurrency. rewrite H. cbn. repeat split.
Qed.

(** A registered code is persisted and announced. *)
Lemma setUserCurrency_registered (this : Config) (env : Env) (c : jsstring)
      (cur : Currency) :
  currencies this !! c = Some cur ->
  let r := setUserCurrency this env c in
  fst r = true
  /\ getItem (localStorage (snd r)) (storageKey this) = Some c
  /\ dispatched (snd r) = dispatched env ++ [c].
Proof.
  intros H. unfold setUserCurrency, get_currency. rewrite H. cbn.
  repeat split.
  destruct (checkIfUserIsLoggedIn _); cbn; unfold getItem, setItem;
    apply lookup_insert_eq.
  destruct (checkIfUserIsLoggedIn _); reflexivity.
Qed.

(* ===================================================================== *)
(** ** [updatePriceElement] *)
(* ===================================================================== *)

(** C1: an element of base amount 10 shown as ["$10"], synchronized under
    EUR and then under GBP, still shows the EUR text: the second call
    rewrites the content the first one left, in which no pattern matches,
    where the original content converts to the GBP text. *)
Theorem resync_after_preference_change :
  let e0 := price_element (js "10") (js "$10") in
  let after_A_then_B :=
    let* e1 := updatePriceElement CurrencyConfig (preference (js "EUR")) e0 in
    updatePriceElement CurrencyConfig (preference (js "GBP")) e1 in
  content (updatePriceElement CurrencyConfig (preference (js "EUR")) e0)
    = Some (EURO :: js "8.50")
  /\ content after_A_then_B = Some (EURO :: js "8.50")
  /\ applied_currency after_A_then_B = Some (js "GBP")
  /\ content (updatePriceElement CurrencyConfig (preference (js "GBP")) e0)
     = Some (POUND :: js "7.30").
Proof. vm_compute. repeat split. Qed.

(** C2: an element of base amount 2000 shown as ["$2000"], synchronized
    twice under the default preference, changes at the second call, which
    matches ["$2"] in the text the first call wrote. *)
Theorem resync_not_idempotent :
  let e0 := price_element (js "2000") (js "$2000") in
  let once := updatePriceElement CurrencyConfig no_preference e0 in
  let twice :=
    let* e1 := once in updatePriceElement CurrencyConfig no_preference e1 in
  content once = Some (js "$2,000.00")
  /\ content twice = Some (js "$2,000.00,000.00").
Proof. vm_compute. repeat split. Qed.

(** The sixth testable property of the specification, on its own input. *)
Example resync_10_GBP :
  let e0 := price_element (js "10") (js "$10") in
  let once := updatePriceElement CurrencyConfig (preference (js "GBP")) e0 in
  let twice :=
    let* e1 := once in
    updatePriceElement CurrencyConfig (preference (js "GBP")) e1 in
  content once = Some (POUND :: js "7.30") /\ twice = once.
Proof. vm_compute. repeat split. Qed.

(** With a baseline in [data-original-html], which the script reads but
    never writes, a call depends on the content of the element no more:
    the result of a second call, under any preference, is that of a first
    one under that preference. *)
Lemma updatePriceElement_from_baseline (this : Config) (envA envB : Env)
      (e e1 : Element) (c : N) (html : jsstring) :
  getAttribute e (js "data-original-html") = Some (c :: html) ->
  updatePriceElement this envA e = Ok e1 ->
  content (updatePriceElement this envB e1)
  = content (updatePriceElement this envB e).
Proof.
  intros Hb H1.
  assert (Hattr : forall n, n <> js "data-currency" ->
                            getAttribute e1 n = getAttribute e n).
  { intros n Hn. revert H1. unfold updatePriceElement.
    destruct (isNaN _); [intros [= <-]; reflexivity|].
    destruct (convertAmount this envA _) as [cv|]; [|discriminate]. cbn.
    destruct (get_currency this (code cv)); try discriminate;
      intros [= <-]; unfold getAttribute, setAttribute, set_innerHTML; cbn;
      apply lookup_insert_ne; intros Heq; apply Hn; rewrite <- Heq;
      reflexivity. }
  assert (Hprice : parseFloat_attribute e1 (js "data-price")
                   = parseFloat_attribute e (js "data-price")).
  { unfold parseFloat_attribute, attribute_string.
    rewrite Hattr by (vm_compute; congruence). reflexivity. }
  unfold updatePriceElement.
  rewrite Hprice, (Hattr (js "data-original-html")) by (vm_compute; congruence).
  rewrite Hb. cbn [or_else].
  destruct (isNaN _) eqn:Hnan.
  - revert H1. unfold updatePriceElement. rewrite Hnan.
    intros [= <-]. reflexivity.
  - destruct (convertAmount this envB _) as [cv|]; [|reflexivity]. cbn.
    destruct (get_currency this (code cv)); reflexivity.
Qed.

(** C8, the claim as stated fails: ["-5"] is not a non-negative numeral,
    yet the element is converted and rewritten. *)
Lemma negative_price_not_skipped :
  let e := price_element (js "-5") (js "$5") in
  non_negative_numeral (js "-5") = false
  /\ content (updatePriceElement CurrencyConfig no_preference e)
     = Some (js "$-5.00")
  /\ updatePriceElement CurrencyConfig no_preference e <> Ok e.
Proof. vm_compute. repeat split; congruence. Qed.

(** The guard of [updatePriceElement]. *)
Lemma updatePriceElement_NaN (this : Config) (env : Env) (e : Element) :
  isNaN (parseFloat_attribute e (js "data-price")) = true ->
  updatePriceElement this env e = Ok e.
Proof. intros H. unfold updatePriceElement. rewrite H. reflexivity. Qed.

(** C8, amended: when the price attribute is absent, or its value does not
    begin (after white space and an optional sign) with a decimal numeral
    or [Infinity], [updatePriceElement] returns without converting,
    without rewriting the element and without an exception, whatever the
    preference. *)
Theorem updatePriceElement_skips_non_numeric (this : Config) (env : Env)
        (e : Element) :
  numeric_prefix (attribute_string e (js "data-price")) = false ->
  updatePriceElement this env e = Ok e.
Proof.
  intros H. apply updatePriceElement_NaN.
  unfold parseFloat_attribute. rewrite parseFloat_NaN, H. reflexivity.
Qed.

(** An unreadable price is skipped even under a preference that would
    make the conversion throw. *)
Lemma updatePriceElement_skips_non_numeric_witness :
  let e := price_element (js "abc") (js "$5") in
  numeric_prefix (attribute_string e (js "data-price")) = false
  /\ updatePriceElement CurrencyConfig (preference (js "DOES_NOT_EXIST")) e
     = Ok e.
Proof.
  split; [vm_compute; reflexivity|].
  apply updatePriceElement_skips_non_numeric. vm_compute. reflexivity.
Defined.

(** An element without the attribute is skipped: [null] reads ["null"]. *)
Lemma updatePriceElement_no_attribute (this : Config) (env : Env)
      (e : Element) :
  getAttribute e (js "data-price") = None ->
  updatePriceElement this env e = Ok e.
Proof.
  intros H. apply updatePriceElement_NaN.
  unfold parseFloat_attribute, attribute_string. rewrite H. reflexivity.
Qed.

(** A value with a numeral at its head is not skipped: the element is
    converted, or the conversion throws. *)
Lemma updatePriceElement_numeric (this : Config) (env : Env) (e : Element) :
  numeric_prefix (attribute_string e (js "data-price")) = true ->
  updatePriceElement this env e
  = let* converted :=
      convertAmount this env (parseFloat_attribute e (js "data-price")) in
    match get_currency this (code converted) with
    | Undefined => Throw TypeError
    | currency =>
        Ok (setAttribute
              (set_innerHTML e
                 (replace_all
                    (replace_all
                       (or_else (getAttribute e (js "data-original-html"))
                                (innerHTML e))
                       RE_DOLLAR_PRICES (formatted converted))
                    RE_TEXTUAL_PRICES
                    (formatted converted ++ js " "
                       ++ ToString (prop_name currency))))
              (js "data-currency") (code converted))
    end.
Proof.
  intros H. unfold updatePriceElement.
  unfold parseFloat_attribute at 1. rewrite parseFloat_NaN, H. cbn [negb].
  destruct (convertAmount this env _) as [cv|]; [|reflexivity]. cbn [bind].
  destruct (get_currency this (code cv)); reflexivity.
Qed.

(* ===================================================================== *)
(** ** The observer of added content *)
(* ===================================================================== *)

(** C7: an added [<span class="price">$5</span>] is price-bearing by its
    text, and the initial scan would convert it, but the observer calls
    [updatePriceElement] on nothing. *)
Theorem observer_misses_text_price :
  let e := mkElement {[ js "class" := js "price" ]} (js "$5") in
  let node := ElementNode e [TextNode (js "$5")] in
  price_bearing e = true
  /\ synchronized (observer_callback CurrencyConfig no_preference
                                     [mkMutation [node]]) = []
  /\ map innerHTML
         (fst (processPageElements CurrencyConfig no_preference [e]))
     = [js "$5.00"].
Proof. vm_compute. repeat split. Qed.

(** An element added with an unreadable price attribute hides its
    descendants from the observer: the child of base amount 20 is never
    passed to [updatePriceElement]. *)
Example observer_misses_nested_price :
  let child := price_element (js "20") (js "$20") in
  let parent := price_element (js "") (js "<span data-price=20>$20</span>") in
  let node := ElementNode parent [ElementNode child [TextNode (js "$20")]] in
  price_bearing child = true
  /\ querySelectorAll_data_price node = [child]
  /\ observer_callback CurrencyConfig no_preference [mkMutation [node]]
     = ([(parent, Ok parent)], None).
Proof. vm_compute. repeat split. Qed.

(* ===================================================================== *)
(** ** Login, storage and the popup *)
(* ===================================================================== *)

Lemma strip_prefix_app p s : strip_prefix p (p ++ s) = Some s.
Proof.
  induction p as [|x p IH]; [reflexivity|].
  cbn. rewrite N.eqb_refl. exact IH.
Qed.

Lemma includes_prefix p s r : strip_prefix p s = Some r -> includes p s = true.
Proof. intros H. destruct s; cbn [includes]; rewrite H; reflexivity. Qed.

Lemma includes_app p : forall pre post, includes p (pre ++ p ++ post) = true.
Proof.
  induction pre as [|c pre IH]; intros post.
  - apply (includes_prefix p (p ++ post) post), strip_prefix_app.
  - cbn [app includes].
    destruct (strip_prefix p (c :: pre ++ p ++ post)); [reflexivity|apply IH].
Qed.

(** X1: the cookie test of [checkIfUserIsLoggedIn] is a substring test: a
    cookie string that holds [user_session] anywhere, as part of a longer
    name or of a value too, makes the user count as logged in. *)
Theorem login_by_cookie_substring (env : Env) (pre post : jsstring) :
  cookie env = pre ++ js "user_session" ++ post ->
  checkIfUserIsLoggedIn env = true.
Proof.
  intros H. unfold checkIfUserIsLoggedIn. rewrite H, includes_app.
  apply orb_true_r.
Qed.

Lemma login_by_cookie_substring_witness :
  checkIfUserIsLoggedIn
    (mkEnv ∅ ∅ (js "theme=dark; not_user_session_id=0") [] []) = true.
Proof.
  apply (login_by_cookie_substring _ (js "theme=dark; not_") (js "_id=0")).
  vm_compute. reflexivity.
Defined.

(** An accepted code is written to [localStorage] under the storage key,
    and nothing else is written there. *)
Lemma setUserCurrency_accepted_storage (this : Config) (env : Env)
      (c : jsstring) :
  get_currency this c <> Undefined ->
  fst (setUserCurrency this env c) = true
  /\ localStorage (snd (setUserCurrency this env c))
     = setItem (localStorage env) (storageKey this) c.
Proof.
  intros H. unfold setUserCurrency.
  destruct (get_currency this c); [| |congruence];
    (split; [reflexivity|]); cbn [snd localStorage];
    destruct (checkIfUserIsLoggedIn _); reflexivity.
Qed.

(** X2: round trip: after [setUserCurrency] has accepted a code,
    [getUserCurrency] resolves that code, whatever the stores held and
    whether the user is logged in or not. *)
Theorem setUserCurrency_then_getUserCurrency (this : Config) (env : Env)
        (c : jsstring) :
  get_currency this c <> Undefined -> c <> [] ->
  getUserCurrency this (snd (setUserCurrency this env c)) = c.
Proof.
  intros H Hc.
  destruct (setUserCurrency_accepted_storage this env c H) as [_ Hl].
  unfold getUserCurrency. rewrite Hl. unfold getItem, setItem.
  rewrite lookup_insert_eq.
  destruct c as [|x s]; [congruence|]. reflexivity.
Qed.

Lemma setUserCurrency_then_getUserCurrency_witness :
  getUserCurrency CurrencyConfig
    (snd (setUserCurrency CurrencyConfig (preference (js "EUR")) (js "JPY")))
  = js "JPY".
Proof.
  apply setUserCurrency_then_getUserCurrency; vm_compute; congruence.
Defined.

(** Writing a non-empty value to [localStorage] keeps a logged-in user
    logged in, also when the key written is [authToken]. *)
Lemma logged_in_after_write (env : Env) (key c : jsstring) :
  c <> [] ->
  checkIfUserIsLoggedIn env = true ->
  checkIfUserIsLoggedIn
    (mkEnv (setItem (localStorage env) key c) (sessionStorage env)
           (cookie env) (dispatched env) (console env)) = true.
Proof.
  intros Hc. unfold checkIfUserIsLoggedIn.
  cbn [localStorage sessionStorage cookie].
  unfold getItem, setItem.
  destruct (decide (key = js "authToken")) as [->|Hk].
  - intros _. rewrite lookup_insert_eq. destruct c; [congruence|reflexivity].
  - rewrite lookup_insert_ne by exact Hk. trivial.
Qed.

(** X3: for a logged-in user, an accepted code is written to
    [sessionStorage] too. *)
Theorem setUserCurrency_logged_in_session (this : Config) (env : Env)
        (c : jsstring) :
  get_currency this c <> Undefined -> c <> [] ->
  checkIfUserIsLoggedIn env = true ->
  getItem (sessionStorage (snd (setUserCurrency this env c))) (storageKey this)
  = Some c.
Proof.
  intros H Hc Hl. unfold setUserCurrency.
  pose proof (logged_in_after_write env (storageKey this) c Hc Hl) as Hl1.
  destruct (get_currency this c); [| |congruence];
    rewrite Hl1; cbn; unfold getItem, setItem; apply lookup_insert_eq.
Qed.

Lemma setUserCurrency_logged_in_session_witness :
  let env := mkEnv ∅ ∅ (js "user_session=1") [] [] in
  getItem (sessionStorage (snd (setUserCurrency CurrencyConfig env (js "GBP"))))
          (storageKey CurrencyConfig)
  = Some (js "GBP").
Proof.
  apply setUserCurrency_logged_in_session; vm_compute; congruence.
Defined.

(** X4: for a user who is not logged in, [setUserCurrency] never touches
    [sessionStorage], whatever the code (the storage key not being the one
    of the login token, which the write itself would set). *)
Theorem setUserCurrency_logged_out_session (this : Config) (env : Env)
        (c : jsstring) :
  storageKey this <> js "authToken" ->
  checkIfUserIsLoggedIn env = false ->
  sessionStorage (snd (setUserCurrency this env c)) = sessionStorage env.
Proof.
  intros Hk Hl. unfold setUserCurrency.
  assert (Hl1 : checkIfUserIsLoggedIn
                  (mkEnv (setItem (localStorage env) (storageKey this) c)
                         (sessionStorage env) (cookie env) (dispatched env)
                         (console env)) = false).
  { revert Hl. unfold checkIfUserIsLoggedIn.
    cbn [localStorage sessionStorage cookie]. unfold getItem, setItem.
    rewrite lookup_insert_ne by exact Hk. trivial. }
  destruct (get_currency this c); try rewrite Hl1; reflexivity.
Qed.

Lemma setUserCurrency_logged_out_session_witness :
  sessionStorage (snd (setUserCurrency CurrencyConfig no_preference (js "GBP")))
  = sessionStorage no_preference.
Proof.
  apply setUserCurrency_logged_out_session; vm_compute; congruence.
Defined.

(** X5: [getUserCurrency] never resolves the empty string when the default
    code is not empty: an empty stored value is falsy and falls through to
    the default. *)
Theorem getUserCurrency_not_empty (this : Config) (env : Env) :
  defaultCurrency this <> [] -> getUserCurrency this env <> [].
Proof.
  intros Hd. unfold getUserCurrency, or_else.
  destruct (negb _ && _);
    match goal with
    | |- context [match ?v with _ => _ end] => destruct v as [[|x s]|]
    end; congruence.
Qed.

Lemma getUserCurrency_not_empty_witness :
  getUserCurrency CurrencyConfig
    (mkEnv {[ js "userCurrencyPreference" := [] ]} ∅ [] [] []) <> [].
Proof. apply getUserCurrency_not_empty. vm_compute. congruence. Defined.

(** X6: once the timer of the popup has run, [checkAndShowPopup] never
    arms it again, whatever else the stores hold. *)
Theorem popup_armed_once (this : Config) (env : Env) :
  checkAndShowPopup this (popup_timeout env) = false.
Proof.
  unfold checkAndShowPopup, popup_timeout. cbn [localStorage].
  unfold getItem at 1, setItem. rewrite lookup_insert_eq. reflexivity.
Qed.

(** X7: after [setUserCurrency] has accepted a code, [checkAndShowPopup]
    does not arm the popup, even on a first visit of a logged-in user. *)
Theorem popup_not_armed_after_choice (this : Config) (env : Env)
        (c : jsstring) :
  get_currency this c <> Undefined -> c <> [] ->
  checkAndShowPopup this (snd (setUserCurrency this env c)) = false.
Proof.
  intros H Hc.
  destruct (setUserCurrency_accepted_storage this env c H) as [_ Hl].
  unfold checkAndShowPopup. rewrite Hl. unfold getItem, setItem.
  rewrite (lookup_insert_eq _ (storageKey this)).
  destruct c as [|x s]; [congruence|].
  cbn [truthy negb andb]. rewrite andb_false_r. reflexivity.
Qed.

Lemma popup_not_armed_after_choice_witness :
  let env := mkEnv ∅ ∅ (js "user_session=1") [] [] in
  checkAndShowPopup CurrencyConfig env = true
  /\ checkAndShowPopup CurrencyConfig
       (snd (setUserCurrency CurrencyConfig env (js "ZAR"))) = false.
Proof.
  split; [vm_compute; reflexivity|].
  apply popup_not_armed_after_choice; vm_compute; congruence.
Defined.

(* ===================================================================== *)
(** ** Conversion and formatting: exceptions and special amounts *)
(* ===================================================================== *)

(** Multiplication by [1] is exact. *)
Lemma mul_one (x : number) : valid_number x = true -> mul x one = x.
Proof.
  destruct x as [s|s| |s m e]; intros Hv; try reflexivity.
  - cbn. destruct s; reflexivity.
  - cbn. destruct s; reflexivity.
  - unfold valid_number, valid_binary, bounded, canonical_mantissa in Hv.
    apply andb_true_iff in Hv as [Hc Hb].
    apply Z.eqb_eq in Hc. apply Z.leb_le in Hb.
    unfold mul, one, SFmul.
    rewrite Pos.mul_comm.
    let t := eval compute in (4503599627370496 * m)%positive in
    change (4503599627370496 * m)%positive with t.
    replace (xorb s false) with s by (destruct s; reflexivity).
    unfold binary_round_aux.
    set (big := (Zpos _)).
    assert (Hd : Zdigits2 big = (Zpos (digits2_pos m) + 52)%Z).
    { unfold big. cbn [Zdigits2 digits2_pos]. lia. }
    assert (Hs1 : shr_fexp prec emax big (e + -52) loc_Exact
                  = (Build_shr_record (Zpos m) false false, e)).
    { unfold shr_fexp. rewrite Hd.
      replace (Zpos (digits2_pos m) + 52 + (e + -52))%Z
        with (Zpos (digits2_pos m) + e)%Z by lia.
      rewrite Hc. replace (e - (e + -52))%Z with 52%Z by lia.
      unfold shr. replace (e + -52 + 52)%Z with e by lia. reflexivity. }
    rewrite Hs1. cbn [shr_m loc_of_shr_record round_nearest_even].
    assert (Hs2 : shr_fexp prec emax (Zpos m) e loc_Exact
                  = (Build_shr_record (Zpos m) false false, e)).
    { unfold shr_fexp. cbn [Zdigits2]. rewrite Hc, Z.sub_diag. reflexivity. }
    rewrite Hs2. cbn [shr_m].
    apply Z.leb_le in Hb. rewrite Hb. reflexivity.
Qed.

Lemma formatCurrency_ok (this : Config) (a : number) (c : jsstring) :
  get_currency this c <> Undefined ->
  exists s, formatCurrency this a c = Ok s.
Proof.
  intros H. unfold formatCurrency.
  destruct (get_currency this c); [| |congruence];
    destruct (bool_decide _); eauto.
Qed.

Lemma formatCurrency_Throw (this : Config) (a : number) (c : jsstring) :
  formatCurrency this a c = Throw TypeError
  <-> get_currency this c = Undefined
      /\ get_currency this (defaultCurrency this) = Undefined.
Proof.
  split.
  - intros H. destruct (get_currency this c) eqn:E.
    1,2: destruct (formatCurrency_ok this a c ltac:(congruence)) as [s Hs];
         congruence.
    split; [reflexivity|].
    destruct (get_currency this (defaultCurrency this)) eqn:Ed;
      [| |reflexivity];
      destruct (formatCurrency_ok this a (defaultCurrency this)
                  ltac:(congruence)) as [s Hs];
      revert H Hs; unfold formatCurrency; rewrite E, Ed;
      destruct (bool_decide _); congruence.
  - intros [H1 H2]. unfold formatCurrency. rewrite H1, H2. reflexivity.
Qed.

(** X8: [formatCurrency] throws exactly when the lookup of the code and
    the lookup of the default code are both [undefined]; the amount plays
    no part. *)
Theorem formatCurrency_throws_iff (this : Config) (a : number)
        (c : jsstring) :
  formatCurrency this a c = Throw TypeError
  <-> get_currency this c = Undefined
      /\ get_currency this (defaultCurrency this) = Undefined.
Proof. apply formatCurrency_Throw. Qed.

(** X9: with the registry of the script, [formatCurrency] returns a string
    for every amount ([NaN] and the infinities too) and every code. *)
Theorem formatCurrency_never_throws (a : number) (c : jsstring) :
  exists s, formatCurrency CurrencyConfig a c = Ok s.
Proof.
  destruct (formatCurrency CurrencyConfig a c) as [s|[]] eqn:E; [eauto|].
  apply formatCurrency_Throw in E as [_ E]. vm_compute in E. discriminate.
Qed.

Lemma convertAmount_Throw (this : Config) (env : Env) (a : number) :
  convertAmount this env a = Throw TypeError
  <-> get_currency this (getUserCurrency this env) = Undefined.
Proof.
  split.
  - intros H. destruct (get_currency this (getUserCurrency this env)) eqn:E;
      [| |reflexivity];
      revert H; unfold convertAmount; rewrite E;
      match goal with
      | |- context [formatCurrency this ?x ?c] =>
          destruct (formatCurrency_ok this x c ltac:(congruence)) as [s ->]
      end; discriminate.
  - intros H. unfold convertAmount. rewrite H. reflexivity.
Qed.

(** X10: [convertAmount] throws exactly when the lookup of the resolved
    preference is [undefined]: never for a registered code, and never
    because of the amount. *)
Theorem convertAmount_throws_iff (this : Config) (env : Env) (a : number) :
  convertAmount this env a = Throw TypeError
  <-> get_currency this (getUserCurrency this env) = Undefined.
Proof. apply convertAmount_Throw. Qed.

(** The code of a conversion is the resolved preference. *)
Lemma convertAmount_code (this : Config) (env : Env) (a : number)
      (cv : ConvertedAmount) :
  convertAmount this env a = Ok cv -> code cv = getUserCurrency this env.
Proof.
  unfold convertAmount.
  destruct (get_currency this (getUserCurrency this env));
    try discriminate;
    destruct (formatCurrency this _ _); cbn [bind]; try discriminate;
    intros [= <-]; reflexivity.
Qed.

(** Under a registered preference the conversion is the product with the
    rate, formatted under the same code. *)
Lemma convertAmount_registered (this : Config) (env : Env) (a : number)
      (c : Currency) :
  currencies this !! getUserCurrency this env = Some c ->
  exists f,
    formatCurrency this (mul a (rate c)) (getUserCurrency this env) = Ok f
    /\ convertAmount this env a
       = Ok (mkConverted (mul a (rate c)) f (Some (symbol c))
                         (getUserCurrency this env)).
Proof.
  intros H.
  assert (Hg : get_currency this (getUserCurrency this env) = Own c)
    by (unfold get_currency; rewrite H; reflexivity).
  destruct (formatCurrency_ok this (mul a (rate c)) (getUserCurrency this env)
              ltac:(congruence)) as [f Hf].
  exists f. split; [exact Hf|].
  unfold convertAmount. rewrite Hg. cbn [prop_rate ToNumber prop_symbol].
  rewrite Hf. reflexivity.
Qed.

(** X11: under the base currency the conversion is the identity on the
    amount: the rate [1.0] changes no binary64 value, and the formatted
    text is that of the amount itself. *)
Theorem convertAmount_base_currency (env : Env) (a : number) :
  valid_number a = true ->
  getUserCurrency CurrencyConfig env = js "USD" ->
  exists f,
    formatCurrency CurrencyConfig a (js "USD") = Ok f
    /\ convertAmount CurrencyConfig env a
       = Ok (mkConverted a f (Some [DOLLAR]) (js "USD")).
Proof.
  intros Hv Hu.
  destruct (convertAmount_registered CurrencyConfig env a
              (mkCurrency [DOLLAR] (js "US Dollar") one (js "before")))
    as (f & Hf & Hc).
  { rewrite Hu. vm_compute. reflexivity. }
  cbn [rate symbol] in Hf, Hc. rewrite mul_one in Hf, Hc by exact Hv.
  rewrite Hu in Hf, Hc. eauto.
Qed.

Lemma convertAmount_base_currency_witness :
  exists f,
    formatCurrency CurrencyConfig (parseFloat (js "19.99")) (js "USD") = Ok f
    /\ convertAmount CurrencyConfig no_preference (parseFloat (js "19.99"))
       = Ok (mkConverted (parseFloat (js "19.99")) f (Some [DOLLAR]) (js "USD")).
Proof.
  apply convertAmount_base_currency; vm_compute; reflexivity.
Defined.

Lemma thousands_non_finite (x : number) :
  non_finite x = true ->
  replace_all (toFixed2 x) RE_THOUSANDS [COMMA] = toFixed2 x.
Proof.
  destruct x as [s|[]| |s m e]; try discriminate; intros _;
    vm_compute; reflexivity.
Qed.

(** X12: an amount that is [NaN] or infinite is formatted as the symbol
    placed beside ["NaN"], ["Infinity"] or ["-Infinity"], without
    separators and without exception. *)
Theorem formatCurrency_non_finite (this : Config) (x : number)
        (currencyCode : jsstring) (c : Currency) :
  non_finite x = true ->
  currencies this !! currencyCode = Some c ->
  formatCurrency this x currencyCode
  = Ok (placed c (match x with
                  | S754_infinity false => js "Infinity"
                  | S754_infinity true => js "-Infinity"
                  | _ => js "NaN"
                  end)).
Proof.
  intros Hx Hc. unfold formatCurrency, get_currency, placed. rewrite Hc.
  rewrite thousands_non_finite by exact Hx.
  cbn [prop_position prop_symbol ToString].
  replace (toFixed2 x) with
    (match x with
     | S754_infinity false => js "Infinity"
     | S754_infinity true => js "-Infinity"
     | _ => js "NaN"
     end) by (destruct x as [|[]| |]; try discriminate; reflexivity).
  destruct (bool_decide (position c = js "before")) eqn:E.
  - apply bool_decide_eq_true in E. rewrite E.
    rewrite bool_decide_eq_true_2 by reflexivity. reflexivity.
  - apply bool_decide_eq_false in E.
    rewrite bool_decide_eq_false_2 by congruence. reflexivity.
Qed.

Lemma formatCurrency_non_finite_witness :
  formatCurrency CurrencyConfig (parseFloat (js "-Infinity")) (js "EUR")
  = Ok (EURO :: js "-Infinity").
Proof.
  rewrite (formatCurrency_non_finite CurrencyConfig _ (js "EUR")
             (mkCurrency [EURO] (js "Euro") (of_decimal false 85 (-2))
                         (js "before")))
    by (vm_compute; reflexivity).
  vm_compute. reflexivity.
Defined.

(* ===================================================================== *)
(** ** [updatePriceElement]: exceptions and what it keeps *)
(* ===================================================================== *)

Lemma updatePriceElement_Throw (this : Config) (env : Env) (e : Element) :
  updatePriceElement this env e = Throw TypeError
  <-> numeric_prefix (attribute_string e (js "data-price")) = true
      /\ get_currency this (getUserCurrency this env) = Undefined.
Proof.
  rewrite <- (convertAmount_Throw this env
                (parseFloat_attribute e (js "data-price"))).
  unfold updatePriceElement.
  unfold parseFloat_attribute at 1. rewrite parseFloat_NaN.
  destruct (numeric_prefix _); cbn [negb].
  - destruct (convertAmount this env _) as [cv|[]] eqn:E.
    + split; [|intros [_ H]; discriminate H].
      cbn [bind]. intros H. exfalso. revert H.
      assert (Hdef : get_currency this (getUserCurrency this env) <> Undefined).
      { intros Hu. apply (convertAmount_Throw this env
                            (parseFloat_attribute e (js "data-price"))) in Hu.
        congruence. }
      rewrite (convertAmount_code _ _ _ _ E).
      destruct (get_currency this (getUserCurrency this env));
        [discriminate|discriminate|congruence].
    + split; [intros _; split; reflexivity|reflexivity].
  - split; [discriminate|intros [H _]; discriminate H].
Qed.

(** X13: [updatePriceElement] throws exactly when the price attribute
    reads as a number and the lookup of the resolved preference is
    [undefined]. *)
Theorem updatePriceElement_throws_iff (this : Config) (env : Env)
        (e : Element) :
  updatePriceElement this env e = Throw TypeError
  <-> numeric_prefix (attribute_string e (js "data-price")) = true
      /\ get_currency this (getUserCurrency this env) = Undefined.
Proof. apply updatePriceElement_Throw. Qed.

Lemma updatePriceElement_usable (this : Config) (env : Env) (e : Element) :
  get_currency this (getUserCurrency this env) <> Undefined ->
  exists e', updatePriceElement this env e = Ok e'.
Proof.
  intros H. destruct (updatePriceElement this env e) as [e'|[]] eqn:E;
    [eauto|].
  apply updatePriceElement_Throw in E as [_ E]. congruence.
Qed.

Lemma updatePriceElement_attributes (this : Config) (env : Env)
      (e e' : Element) (attr : jsstring) :
  updatePriceElement this env e = Ok e' ->
  attr <> js "data-currency" ->
  getAttribute e' attr = getAttribute e attr.
Proof.
  intros H Hn. revert H. unfold updatePriceElement.
  destruct (isNaN _); [intros [= <-]; reflexivity|].
  destruct (convertAmount this env _) as [cv|]; [|discriminate]. cbn [bind].
  destruct (get_currency this (code cv)); try discriminate;
    intros [= <-]; unfold getAttribute, setAttribute, set_innerHTML;
    cbn [attributes]; apply lookup_insert_ne; congruence.
Qed.

(** X14: [updatePriceElement] writes no attribute but [data-currency]:
    every other attribute, the base price among them, reads after the call
    as before. *)
Theorem updatePriceElement_keeps_attributes (this : Config) (env : Env)
        (e e' : Element) (attr : jsstring) :
  updatePriceElement this env e = Ok e' ->
  attr <> js "data-currency" ->
  getAttribute e' attr = getAttribute e attr.
Proof. apply updatePriceElement_attributes. Qed.

Lemma updatePriceElement_keeps_attributes_witness :
  let e := price_element (js "10") (js "$10") in
  match updatePriceElement CurrencyConfig (preference (js "EUR")) e with
  | Ok e' => getAttribute e' (js "data-price") = getAttribute e (js "data-price")
  | Throw _ => False
  end.
Proof.
  intros e.
  destruct (updatePriceElement CurrencyConfig (preference (js "EUR")) e)
    as [e'|x] eqn:E.
  - apply (updatePriceElement_keeps_attributes _ _ _ _ _ E).
    vm_compute. discriminate.
  - vm_compute in E. discriminate E.
Defined.

Lemma updatePriceElement_tagged (this : Config) (env : Env)
      (e e' : Element) :
  numeric_prefix (attribute_string e (js "data-price")) = true ->
  updatePriceElement this env e = Ok e' ->
  getAttribute e' (js "data-currency") = Some (getUserCurrency this env).
Proof.
  intros Hn. rewrite (updatePriceElement_numeric this env e Hn).
  destruct (convertAmount this env _) as [cv|] eqn:E; [|discriminate].
  cbn [bind]. rewrite (convertAmount_code _ _ _ _ E).
  destruct (get_currency this (getUserCurrency this env)); try discriminate;
    intros [= <-]; unfold getAttribute, setAttribute; cbn [attributes];
    apply lookup_insert_eq.
Qed.

(** X15: an element with a numeric price that [updatePriceElement]
    returns is tagged with the resolved preference in [data-currency]. *)
Theorem updatePriceElement_tags_currency (this : Config) (env : Env)
        (e e' : Element) :
  numeric_prefix (attribute_string e (js "data-price")) = true ->
  updatePriceElement this env e = Ok e' ->
  getAttribute e' (js "data-currency") = Some (getUserCurrency this env).
Proof. apply updatePriceElement_tagged. Qed.

Lemma updatePriceElement_tags_currency_witness :
  let e := price_element (js " 12.5 rand") (js "$12.50") in
  let env := preference (js "ZAR") in
  match updatePriceElement CurrencyConfig env e with
  | Ok e' =>
      getAttribute e' (js "data-currency")
      = Some (getUserCurrency CurrencyConfig env)
  | Throw _ => False
  end.
Proof.
  intros e env.
  destruct (updatePriceElement CurrencyConfig env e) as [e'|x] eqn:E.
  - apply (updatePriceElement_tags_currency CurrencyConfig env e e');
      [vm_compute; reflexivity|exact E].
  - vm_compute in E. discriminate E.
Defined.

Lemma first_match_none f c s :
  first_match f (c :: s) = None -> f (c :: s) = None /\ first_match f s = None.
Proof.
  cbn [first_match]. destruct (f (c :: s)); [discriminate|auto].
Qed.

Lemma first_match_some f : forall s n,
  first_match f s = Some n -> exists pre t, s = pre ++ t /\ f t = Some n.
Proof.
  induction s as [|c s IH]; intros n; cbn [first_match].
  - destruct (f []) eqn:E; [|discriminate]. intros [= <-].
    exists [], []. auto.
  - destruct (f (c :: s)) eqn:E.
    + intros [= <-]. exists [], (c :: s). auto.
    + intros H. destruct (IH n H) as (pre & t & -> & Ht).
      exists (c :: pre), t. auto.
Qed.

Section NoMatch.

Variable R : RegExp.
Variable f : jsstring -> option jsstring.
Hypothesis no_match : forall bef aft, f aft = None -> match_at R bef aft = None.

(** A replacement over a text in which the pattern matches nowhere
    returns the text. *)
Lemma replace_walk_no_match (tpl : jsstring) : forall aft bef,
  first_match f aft = None -> replace_walk R tpl bef aft 0 = aft.
Proof.
  induction aft as [|c tl IH]; intros bef H.
  - cbn [replace_walk]. rewrite no_match; [reflexivity|].
    revert H. cbn [first_match]. destruct (f []); [discriminate|reflexivity].
  - apply first_match_none in H as [H1 H2].
    cbn [replace_walk]. rewrite (no_match bef _ H1), IH by exact H2.
    reflexivity.
Qed.

End NoMatch.

Lemma match_at_dollar_prices_none bef aft :
  symbol_numeral aft = None -> match_at RE_DOLLAR_PRICES bef aft = None.
Proof.
  unfold match_at, RE_DOLLAR_PRICES. cbn [pattern ignoreCase].
  rewrite m_seq, m_char.
  destruct aft as [|c s]; [reflexivity|].
  cbn [symbol_numeral]. rewrite (N.eqb_sym DOLLAR c).
  destruct (c =? DOLLAR)%N; [|reflexivity].
  rewrite m_seq, m_plus_digit. unfold numeral_prefix.
  destruct s as [|d tl]; [reflexivity|].
  destruct (is_digit d) eqn:Hd; [|reflexivity].
  rewrite span_cons_true by exact Hd.
  destruct (snd (span is_digit tl)) as [|c' [|d1 [|d2 r']]];
    try discriminate.
  destruct (_ && _ && _); discriminate.
Qed.

Lemma match_at_textual_prices_none bef aft :
  word_numeral aft = None -> match_at RE_TEXTUAL_PRICES bef aft = None.
Proof.
  intros H. pose proof (match_at_textual_prices bef aft) as Hm.
  rewrite H in Hm. exact Hm.
Qed.

Lemma extractPriceFromText_none text :
  extractPriceFromText text = None ->
  first_match symbol_numeral text = None
  /\ first_match word_numeral text = None.
Proof.
  unfold extractPriceFromText, str_match.
  pose proof (exec_from_first_match RE_DOLLAR_PRICE symbol_numeral
                (fun bef aft => match_at_dollar_price bef aft) text []) as H1.
  pose proof (exec_from_first_match RE_TEXTUAL_PRICES word_numeral
                (fun bef aft => match_at_textual_prices bef aft) text []) as H2.
  destruct (exec_from RE_DOLLAR_PRICE [] text) as [pm|].
  - destruct H1 as (n & -> & _). discriminate.
  - destruct (exec_from RE_TEXTUAL_PRICES [] text) as [nm|].
    + destruct H2 as (n & -> & _). discriminate.
    + auto.
Qed.

Lemma extractPriceFromText_some text n :
  extractPriceFromText text = Some n ->
  first_match symbol_numeral text = Some n
  \/ first_match word_numeral text = Some n.
Proof.
  unfold extractPriceFromText, str_match.
  pose proof (exec_from_first_match RE_DOLLAR_PRICE symbol_numeral
                (fun bef aft => match_at_dollar_price bef aft) text []) as H1.
  pose proof (exec_from_first_match RE_TEXTUAL_PRICES word_numeral
                (fun bef aft => match_at_textual_prices bef aft) text []) as H2.
  destruct (exec_from RE_DOLLAR_PRICE [] text) as [pm|].
  - destruct H1 as (n' & -> & ->). auto.
  - destruct (exec_from RE_TEXTUAL_PRICES [] text) as [nm|].
    + destruct H2 as (n' & -> & ->). auto.
    + discriminate.
Qed.

(** X16: the two replacements of [updatePriceElement] agree with the
    extractor on what a price is: markup in which [extractPriceFromText]
    finds no price is written back unchanged, whatever the base price and
    the preference. *)
Theorem updatePriceElement_keeps_priceless_markup (this : Config) (env : Env)
        (e e' : Element) :
  numeric_prefix (attribute_string e (js "data-price")) = true ->
  extractPriceFromText (originalHTML e) = None ->
  updatePriceElement this env e = Ok e' ->
  innerHTML e' = originalHTML e.
Proof.
  intros Hn Hx. apply extractPriceFromText_none in Hx as [Hs Hw].
  rewrite (updatePriceElement_numeric this env e Hn).
  destruct (convertAmount this env _) as [cv|]; [|discriminate]. cbn [bind].
  fold (originalHTML e). unfold replace_all.
  rewrite (replace_walk_no_match RE_DOLLAR_PRICES symbol_numeral
             (fun bef aft => match_at_dollar_prices_none bef aft))
    by exact Hs.
  destruct (get_currency this (code cv)); try discriminate;
    rewrite (replace_walk_no_match RE_TEXTUAL_PRICES word_numeral
               (fun bef aft => match_at_textual_prices_none bef aft))
      by exact Hw;
    intros [= <-]; reflexivity.
Qed.

Lemma updatePriceElement_keeps_priceless_markup_witness :
  let e := price_element (js "10") (js "from <b>ten</b> euros, 5% off") in
  match updatePriceElement CurrencyConfig (preference (js "EUR")) e with
  | Ok e' => innerHTML e' = originalHTML e
  | Throw _ => False
  end.
Proof.
  intros e.
  destruct (updatePriceElement CurrencyConfig (preference (js "EUR")) e)
    as [e'|x] eqn:E.
  - apply (updatePriceElement_keeps_priceless_markup _ _ _ _)
      with (3 := E); vm_compute; reflexivity.
  - vm_compute in E. discriminate E.
Defined.

(** X17: an element that carries its original markup in
    [data-original-html] can be updated again under any preference: the
    second update gives what a first update under that preference gives. *)
Theorem resync_from_original_markup (this : Config) (envA envB : Env)
        (e e1 : Element) (c : N) (html : jsstring) :
  getAttribute e (js "data-original-html") = Some (c :: html) ->
  updatePriceElement this envA e = Ok e1 ->
  content (updatePriceElement this envB e1)
  = content (updatePriceElement this envB e).
Proof. apply updatePriceElement_from_baseline. Qed.

Lemma resync_from_original_markup_witness :
  let e := mkElement (<[js "data-original-html" := js "$2000"]>
                        {[ js "data-price" := js "2000" ]})
                     (js "$2000") in
  match updatePriceElement CurrencyConfig no_preference e with
  | Ok e1 =>
      content (updatePriceElement CurrencyConfig (preference (js "GBP")) e1)
      = content (updatePriceElement CurrencyConfig (preference (js "GBP")) e)
  | Throw _ => False
  end.
Proof.
  intros e.
  destruct (updatePriceElement CurrencyConfig no_preference e)
    as [e1|x] eqn:E.
  - apply (resync_from_original_markup CurrencyConfig no_preference
             (preference (js "GBP")) e e1 DOLLAR (js "2000"));
      [vm_compute; reflexivity|exact E].
  - vm_compute in E. discriminate E.
Defined.

(* ===================================================================== *)
(** ** What the extractor returns *)
(* ===================================================================== *)

Lemma span_all f ds r :
  forallb f ds = true ->
  match r with c :: _ => f c = false | [] => True end ->
  span f (ds ++ r) = (ds, r).
Proof.
  intros Hd Hr. induction ds as [|d ds IH]; cbn [app].
  - destruct r as [|c r]; [reflexivity|]. apply span_cons_false, Hr.
  - cbn in Hd. apply andb_true_iff in Hd as [H1 H2].
    rewrite span_cons_true, IH by assumption. reflexivity.
Qed.

Lemma span_fst_all f s : forallb f (fst (span f s)) = true.
Proof.
  induction s as [|c s IH]; [reflexivity|].
  destruct (f c) eqn:E.
  - rewrite span_cons_true by exact E. cbn. rewrite E. exact IH.
  - rewrite span_cons_false by exact E. reflexivity.
Qed.

Lemma numeral_prefix_plain s n r :
  numeral_prefix s = Some (n, r) -> plain_numeral n.
Proof.
  unfold numeral_prefix.
  pose proof (span_fst_all is_digit s) as Ha.
  destruct (span is_digit s) as [ds r0]. cbn [fst] in Ha.
  destruct ds as [|d ds]; [discriminate|].
  assert (Hplain : plain_numeral (d :: ds)) by (exists d, ds; auto).
  destruct r0 as [|c [|d1 [|d2 r']]]; try (intros [= <- <-]; exact Hplain).
  destruct ((c =? DOT)%N && is_digit d1 && is_digit d2) eqn:E;
    [|intros [= <- <-]; exact Hplain].
  apply andb_true_iff in E as [E H2]. apply andb_true_iff in E as [E H1].
  apply N.eqb_eq in E. subst c. intros [= <- <-].
  exists d, ds. split; [exact Ha|]. right. exists d1, d2. auto.
Qed.

Lemma plain_numeral_accepted n :
  plain_numeral n ->
  non_negative_numeral n = true /\ numeric_prefix n = true.
Proof.
  intros (d & ds & Ha & Hn).
  assert (Hd : is_digit d = true)
    by (cbn in Ha; apply andb_true_iff in Ha as [H _]; exact H).
  assert (Hhead : forall t, numeric_prefix (d :: t) = true).
  { intros t. unfold numeric_prefix, trim_start.
    rewrite span_cons_false by (apply digit_not_space, Hd). cbn [snd].
    assert (Hrange : (48 <= d <= 57)%N).
    { unfold is_digit in Hd. apply andb_true_iff in Hd as [H1 H2].
      apply N.leb_le in H1, H2. lia. }
    replace (d =? PLUS)%N with false
      by (symmetry; apply N.eqb_neq; unfold PLUS; lia).
    replace (d =? MINUS)%N with false
      by (symmetry; apply N.eqb_neq; unfold MINUS; lia).
    cbn [orb].
    replace (strip_prefix (js "Infinity") (d :: t)) with (@None jsstring).
    - rewrite Hd. reflexivity.
    - change (js "Infinity") with (73%N :: js "nfinity").
      cbn [strip_prefix].
      replace (73 =? d)%N with false
        by (symmetry; apply N.eqb_neq; lia). reflexivity. }
  destruct Hn as [->|(d1 & d2 & H1 & H2 & ->)].
  - split; [|apply Hhead]. unfold non_negative_numeral.
    rewrite <- (app_nil_r (d :: ds)), span_all by (exact Ha || exact I).
    reflexivity.
  - split; [|apply Hhead]. unfold non_negative_numeral.
    rewrite span_all by (exact Ha || reflexivity).
    rewrite <- (app_nil_r [d1; d2]), span_all
      by (cbn; rewrite ?H1, ?H2; reflexivity || exact I).
    reflexivity.
Qed.

Lemma extractPriceFromText_plain (text n : jsstring) :
  extractPriceFromText text = Some n -> plain_numeral n.
Proof.
  intros H.
  apply extractPriceFromText_some in H as [H|H];
    apply first_match_some in H as (pre & t & _ & Ht).
  - destruct t as [|c t]; [discriminate|]. cbn [symbol_numeral] in Ht.
    destruct (c =? DOLLAR)%N; [|discriminate].
    destruct (numeral_prefix t) as [[n' r]|] eqn:E; [|discriminate].
    cbn in Ht. injection Ht as <-. exact (numeral_prefix_plain _ _ _ E).
  - unfold word_numeral in Ht.
    destruct (numeral_prefix t) as [[n' r]|] eqn:E; [|discriminate].
    destruct (currency_word _); [|discriminate].
    injection Ht as <-. exact (numeral_prefix_plain _ _ _ E).
Qed.

(** X18: whatever text it is given, what [extractPriceFromText] returns
    is a plain non-negative numeral (digits, or digits, a point and two
    digits): never empty, never signed, and always read by [parseFloat] as
    a number. *)
Theorem extractPriceFromText_numeral (text n : jsstring) :
  extractPriceFromText text = Some n ->
  plain_numeral n
  /\ non_negative_numeral n = true
  /\ isNaN (parseFloat n) = false.
Proof.
  intros H. pose proof (extractPriceFromText_plain text n H) as Hp.
  destruct (plain_numeral_accepted n Hp) as [H1 H2].
  repeat split; try assumption.
  rewrite parseFloat_NaN, H2. reflexivity.
Qed.

Lemma extractPriceFromText_numeral_witness :
  plain_numeral (js "1299.95")
  /\ non_negative_numeral (js "1299.95") = true
  /\ isNaN (parseFloat (js "1299.95")) = false.
Proof.
  apply (extractPriceFromText_numeral (js "now 1299.95 USD only")).
  vm_compute. reflexivity.
Defined.

(* ===================================================================== *)
(** ** The page scan *)
(* ===================================================================== *)

(** [processPageElements] is its two loops in sequence, the second being
    run when the first has not thrown. *)
Lemma processPageElements_passes (this : Config) (env : Env)
      (document : list Element) :
  processPageElements this env document
  = match forEach (scan_attribute this env) document with
    | (document1, Some x) => (document1, Some x)
    | (document1, None) => forEach (scan_text this env) document1
    end.
Proof. reflexivity. Qed.

Section ForEach.

Variable f : Element -> Element * option Exn.

Lemma forEach_quiet : forall l,
  Forall (fun e => snd (f e) = None) l ->
  forEach f l = (map (fun e => fst (f e)) l, None).
Proof.
  induction 1 as [|e l He Hl IH]; [reflexivity|].
  cbn [forEach map]. destruct (f e) as [e' [x|]]; [discriminate He|].
  rewrite IH. reflexivity.
Qed.

Lemma forEach_throws : forall l,
  Exists (fun e => snd (f e) <> None) l -> snd (forEach f l) <> None.
Proof.
  induction l as [|e l IH]; intros H; [inversion H|].
  cbn [forEach]. destruct (f e) as [e' [x|]] eqn:E; [discriminate|].
  inversion H as [? ? He|? ? Hl]; subst.
  - rewrite E in He. cbn in He. congruence.
  - specialize (IH Hl). destruct (forEach f l). exact IH.
Qed.

Lemma forEach_Forall2 (P : Element -> Element -> Prop) : forall l,
  (forall e, P e e) -> (forall e, P e (fst (f e))) ->
  Forall2 P l (fst (forEach f l)).
Proof.
  intros l Hr Hf. induction l as [|e l IH]; [constructor|].
  cbn [forEach]. specialize (Hf e). destruct (f e) as [e' [x|]].
  - constructor; [exact Hf|]. clear IH. induction l; constructor; auto.
  - destruct (forEach f l) as [r x]. constructor; [exact Hf|exact IH].
Qed.

End ForEach.

Lemma Forall2_compose (P : Element -> Element -> Prop) :
  (forall a b c, P a b -> P b c -> P a c) ->
  forall l1 l2 l3, Forall2 P l1 l2 -> Forall2 P l2 l3 -> Forall2 P l1 l3.
Proof.
  intros Ht l1 l2 l3 H12. revert l3.
  induction H12 as [|a b l1 l2 Hab H12 IH]; intros l3 H23;
    inversion H23; subst; constructor; eauto.
Qed.

Lemma Forall2_map_r (P : Element -> Element -> Prop) (g : Element -> Element) :
  forall l, (forall e, P e (g e)) -> Forall2 P l (map g l).
Proof. intros l H. induction l; constructor; auto. Qed.

(** A reflexive and transitive relation that both callbacks respect holds
    between each element and what the scan leaves of it, also when the
    scan throws. *)
Lemma processPageElements_Forall2 (this : Config) (env : Env)
      (P : Element -> Element -> Prop) (document : list Element) :
  (forall e, P e e) ->
  (forall a b c, P a b -> P b c -> P a c) ->
  (forall e, P e (fst (scan_attribute this env e))) ->
  (forall e, P e (fst (scan_text this env e))) ->
  Forall2 P document (fst (processPageElements this env document)).
Proof.
  intros Hr Ht H1 H2. rewrite processPageElements_passes.
  pose proof (forEach_Forall2 (scan_attribute this env) P document Hr H1) as Ha.
  destruct (forEach (scan_attribute this env) document) as [d1 [x|]];
    [exact Ha|].
  cbn [fst] in Ha.
  eapply Forall2_compose; [exact Ht|exact Ha|].
  apply forEach_Forall2; assumption.
Qed.

Lemma numeric_price_has_attribute (e : Element) :
  numeric_price e = true -> hasAttribute e (js "data-price") = true.
Proof.
  unfold numeric_price, attribute_string, hasAttribute, getAttribute.
  destruct (attributes e !! js "data-price") as [v|].
  - intros _. apply bool_decide_eq_true. eauto.
  - vm_compute. discriminate.
Qed.

Lemma hasAttribute_false (e : Element) (a : jsstring) :
  hasAttribute e a = false -> getAttribute e a = None.
Proof.
  unfold hasAttribute, getAttribute. intros H.
  apply bool_decide_eq_false in H.
  destruct (attributes e !! a); [exfalso; apply H; eauto|reflexivity].
Qed.

Lemma updatePriceElement_has_price (this : Config) (env : Env)
      (e e' : Element) :
  updatePriceElement this env e = Ok e' ->
  hasAttribute e' (js "data-price") = hasAttribute e (js "data-price").
Proof.
  intros H. unfold hasAttribute.
  pose proof (updatePriceElement_attributes this env e e' (js "data-price") H
                ltac:(vm_compute; discriminate)) as Ha.
  unfold getAttribute in Ha. rewrite Ha. reflexivity.
Qed.

Lemma scan_attribute_usable (this : Config) (env : Env) (e : Element) :
  get_currency this (getUserCurrency this env) <> Undefined ->
  snd (scan_attribute this env e) = None.
Proof.
  intros H. unfold scan_attribute, in_place.
  destruct (hasAttribute _ _); [|reflexivity].
  destruct (updatePriceElement_usable this env e H) as [e' ->]. reflexivity.
Qed.

Lemma scan_text_usable (this : Config) (env : Env) (e : Element) :
  get_currency this (getUserCurrency this env) <> Undefined ->
  snd (scan_text this env e) = None.
Proof.
  intros H. unfold scan_text, in_place.
  destruct (_ && _); [|reflexivity].
  destruct (extractPriceFromText _) as [[|c p]|]; try reflexivity.
  match goal with
  | |- context [updatePriceElement this env ?x] =>
      destruct (updatePriceElement_usable this env x H) as [e' ->]
  end. reflexivity.
Qed.

Lemma scan_attribute_not_numeric (this : Config) (env : Env) (e : Element) :
  numeric_price e = false -> scan_attribute this env e = (e, None).
Proof.
  intros H. unfold scan_attribute, in_place.
  destruct (hasAttribute _ _); [|reflexivity].
  rewrite updatePriceElement_NaN; [reflexivity|].
  unfold parseFloat_attribute. rewrite parseFloat_NaN.
  unfold numeric_price in H. rewrite H. reflexivity.
Qed.

Lemma scan_attribute_numeric (this : Config) (env : Env) (e : Element) :
  get_currency this (getUserCurrency this env) = Undefined ->
  numeric_price e = true ->
  scan_attribute this env e = (e, Some TypeError).
Proof.
  intros Hu H. unfold scan_attribute, in_place.
  rewrite (numeric_price_has_attribute e H).
  assert (Ht : updatePriceElement this env e = Throw TypeError)
    by (apply updatePriceElement_Throw; auto).
  rewrite Ht. reflexivity.
Qed.

Lemma scan_text_no_price (this : Config) (env : Env) (e : Element) :
  text_price e = false -> scan_text this env e = (e, None).
Proof.
  unfold text_price, scan_text. intros H.
  destruct (price_class e && negb (hasAttribute e (js "data-price")));
    [|reflexivity].
  cbn [andb] in H. apply bool_decide_eq_false in H.
  destruct (extractPriceFromText _) as [[|c p]|]; try reflexivity.
  exfalso. apply H. eauto.
Qed.

Lemma text_price_extracted (e : Element) :
  text_price e = true ->
  exists c p,
    price_class e && negb (hasAttribute e (js "data-price")) = true
    /\ extractPriceFromText (textContent e) = Some (c :: p)
    /\ numeric_prefix (c :: p) = true.
Proof.
  unfold text_price. intros H. apply andb_true_iff in H as [H1 H2].
  apply bool_decide_eq_true in H2 as [n Hn].
  pose proof (extractPriceFromText_plain _ _ Hn) as Hp.
  destruct (plain_numeral_accepted n Hp) as [_ Hnum].
  destruct Hp as (d & ds & _ & Hshape).
  assert (exists c p, n = c :: p) as (c & p & ->).
  { destruct Hshape as [->|(d1 & d2 & _ & _ & ->)]; cbn; eauto. }
  exists c, p. auto.
Qed.

Lemma annotated_price (e : Element) (n : jsstring) :
  attribute_string (annotated e n) (js "data-price") = n.
Proof.
  unfold attribute_string, annotated, getAttribute, setAttribute.
  cbn [attributes].
  rewrite lookup_insert_ne by (vm_compute; discriminate).
  rewrite lookup_insert_eq. reflexivity.
Qed.

Lemma scan_text_price (this : Config) (env : Env) (e : Element) :
  get_currency this (getUserCurrency this env) = Undefined ->
  text_price e = true ->
  snd (scan_text this env e) = Some TypeError.
Proof.
  intros Hu H. destruct (text_price_extracted e H) as (c & p & Hc & Hx & Hn).
  unfold scan_text. rewrite Hc, Hx. cbv zeta.
  change (setAttribute (setAttribute e (js "data-price") (c :: p))
            (js "data-original-text")
            (textContent (setAttribute e (js "data-price") (c :: p))))
    with (annotated e (c :: p)).
  assert (Ht : updatePriceElement this env (annotated e (c :: p))
               = Throw TypeError).
  { apply updatePriceElement_Throw. rewrite annotated_price. auto. }
  unfold in_place. rewrite Ht. reflexivity.
Qed.

(** Under a usable preference the scan completes, each element going
    through both callbacks. *)
Lemma processPageElements_usable (this : Config) (env : Env)
      (document : list Element) :
  get_currency this (getUserCurrency this env) <> Undefined ->
  processPageElements this env document
  = (map (fun e => fst (scan_text this env (fst (scan_attribute this env e))))
         document, None).
Proof.
  intros H. rewrite processPageElements_passes.
  rewrite forEach_quiet
    by (apply List.Forall_forall; intros; apply scan_attribute_usable, H).
  rewrite forEach_quiet
    by (apply List.Forall_forall; intros; apply scan_text_usable, H).
  rewrite map_map. reflexivity.
Qed.

(** X19: the page scan throws exactly when the lookup of the resolved
    preference is [undefined] and the document holds a convertible
    element: one with a numeric price attribute, or one of a price class
    without price attribute and with a price in its text.  Otherwise it
    completes. *)
Theorem processPageElements_throws_iff (this : Config) (env : Env)
        (document : list Element) :
  snd (processPageElements this env document) = Some TypeError
  <-> get_currency this (getUserCurrency this env) = Undefined
      /\ exists e, In e document /\ convertible e = true.
Proof.
  destruct (get_currency this (getUserCurrency this env)) eqn:Hu.
  1,2: rewrite processPageElements_usable by congruence;
       split; [discriminate|intros [? _]; discriminate].
  assert (Hsome : forall r : list Element * option Exn,
             snd r <> None -> snd r = Some TypeError).
  { intros [r [[]|]]; cbn; congruence. }
  rewrite processPageElements_passes.
  destruct (existsb numeric_price document) eqn:E1.
  - apply existsb_exists in E1 as (e & He & Hn).
    split.
    + intros _. split; [reflexivity|]. exists e. split; [exact He|].
      unfold convertible. rewrite Hn. reflexivity.
    + intros _.
      assert (Hx : snd (forEach (scan_attribute this env) document) <> None).
      { apply forEach_throws, List.Exists_exists. exists e.
        split; [exact He|].
        rewrite (scan_attribute_numeric this env e Hu Hn). discriminate. }
      destruct (forEach (scan_attribute this env) document) as [d1 [x|]];
        [destruct x; reflexivity|cbn in Hx; congruence].
  - assert (Hall : forall e, In e document -> numeric_price e = false).
    { intros e He. destruct (numeric_price e) eqn:En; [|reflexivity].
      rewrite <- E1. symmetry. apply existsb_exists. eauto. }
    rewrite forEach_quiet
      by (apply List.Forall_forall; intros e He;
          rewrite scan_attribute_not_numeric by (apply Hall, He);
          reflexivity).
    rewrite (map_ext_in _ (fun e => e))
      by (intros e He; rewrite scan_attribute_not_numeric by (apply Hall, He);
          reflexivity).
    rewrite map_id.
    destruct (existsb text_price document) eqn:E2.
    + apply existsb_exists in E2 as (e & He & Hn).
      split.
      * intros _. split; [reflexivity|]. exists e. split; [exact He|].
        unfold convertible. rewrite Hn. apply orb_true_r.
      * intros _. apply Hsome, forEach_throws, List.Exists_exists.
        exists e. split; [exact He|].
        rewrite (scan_text_price this env e Hu Hn). discriminate.
    + assert (Hall2 : forall e, In e document -> text_price e = false).
      { intros e He. destruct (text_price e) eqn:En; [|reflexivity].
        rewrite <- E2. symmetry. apply existsb_exists. eauto. }
      rewrite forEach_quiet
        by (apply List.Forall_forall; intros e He;
            rewrite scan_text_no_price by (apply Hall2, He); reflexivity).
      split; [discriminate|].
      intros [_ (e & He & Hc)]. unfold convertible in Hc.
      rewrite (Hall e He), (Hall2 e He) in Hc. discriminate.
Qed.

(** The scan writes to no element that is not convertible. *)
Lemma processPageElements_others (this : Config) (env : Env)
      (document : list Element) :
  Forall2 (fun e e' => convertible e = false -> e' = e)
          document (fst (processPageElements this env document)).
Proof.
  apply processPageElements_Forall2.
  - reflexivity.
  - intros a b c Hab Hbc Ha. specialize (Hab Ha). subst b. auto.
  - intros e H. apply orb_false_iff in H as [H _].
    rewrite scan_attribute_not_numeric by exact H. reflexivity.
  - intros e H. apply orb_false_iff in H as [_ H].
    rewrite scan_text_no_price by exact H. reflexivity.
Qed.

(** X20: on a flat page, the scan leaves every element that is not
    convertible and has no child element exactly as it was, attributes
    and content, whether it completes or throws. *)
Theorem processPageElements_leaves_others (this : Config) (env : Env)
        (document : list Element) :
  flat_page document ->
  Forall2 (fun e e' =>
             convertible e = false -> tag_free (innerHTML e) = true ->
             e' = e)
          document (fst (processPageElements this env document)).
Proof.
  intros _.
  eapply Forall2_impl; [apply processPageElements_others|].
  cbn beta. auto.
Qed.

Lemma processPageElements_leaves_others_witness :
  let document := [price_element (js "on request") (js "$5 or less");
                   class_element (js "price") (js "5 euros");
                   price_element (js "10") (js "$10")] in
  Forall2 (fun e e' =>
             convertible e = false -> tag_free (innerHTML e) = true ->
             e' = e)
          document
          (fst (processPageElements CurrencyConfig (preference (js "EUR"))
                                    document)).
Proof.
  intros document.
  apply (processPageElements_leaves_others CurrencyConfig
           (preference (js "EUR")) document).
  repeat constructor; intros _; vm_compute; reflexivity.
Defined.

(** X21: the page scan removes no attribute and overwrites none but
    [data-currency] and [data-original-text]: a price attribute an element
    has is never changed, whether the scan completes or throws. *)
Theorem processPageElements_keeps_attributes (this : Config) (env : Env)
        (document : list Element) :
  Forall2 (fun e e' =>
             forall attr v,
               attr <> js "data-currency" ->
               attr <> js "data-original-text" ->
               getAttribute e attr = Some v -> getAttribute e' attr = Some v)
          document (fst (processPageElements this env document)).
Proof.
  apply processPageElements_Forall2.
  - auto.
  - intros a b c Hab Hbc attr v H1 H2 Ha. eauto.
  - intros e attr v H1 H2 Ha. unfold scan_attribute, in_place.
    destruct (hasAttribute _ _); [|exact Ha].
    destruct (updatePriceElement this env e) as [e'|x] eqn:E; [|exact Ha].
    cbn [fst]. rewrite (updatePriceElement_attributes _ _ _ _ _ E H1).
    exact Ha.
  - intros e attr v H1 H2 Ha. unfold scan_text.
    destruct (price_class e); [|exact Ha]. cbn [andb].
    destruct (hasAttribute e (js "data-price")) eqn:Hp; [exact Ha|].
    cbn [negb].
    destruct (extractPriceFromText _) as [[|c p]|]; try exact Ha.
    cbv zeta.
    change (setAttribute (setAttribute e (js "data-price") (c :: p))
              (js "data-original-text")
              (textContent (setAttribute e (js "data-price") (c :: p))))
      with (annotated e (c :: p)).
    assert (Hne : attr <> js "data-price").
    { intros ->. apply hasAttribute_false in Hp. congruence. }
    assert (Han : getAttribute (annotated e (c :: p)) attr = Some v).
    { unfold annotated, getAttribute, setAttribute. cbn [attributes].
      rewrite !lookup_insert_ne by congruence. exact Ha. }
    unfold in_place.
    destruct (updatePriceElement this env _) as [e'|x] eqn:E; [|exact Han].
    cbn [fst]. rewrite (updatePriceElement_attributes _ _ _ _ _ E H1).
    exact Han.
Qed.

(** Under a usable preference the first loop updates every element with a
    price attribute, and the second loop writes to none of them. *)
Lemma processPageElements_priced (this : Config) (env : Env)
      (document : list Element) :
  get_currency this (getUserCurrency this env) <> Undefined ->
  snd (processPageElements this env document) = None
  /\ Forall2 (fun e e' =>
                hasAttribute e (js "data-price") = true ->
                updatePriceElement this env e = Ok e')
             document (fst (processPageElements this env document)).
Proof.
  intros H. rewrite processPageElements_usable by exact H.
  split; [reflexivity|]. cbn [fst]. apply Forall2_map_r. intros e Hp.
  unfold scan_attribute, in_place. rewrite Hp.
  destruct (updatePriceElement_usable this env e H) as [e' He]. rewrite He.
  cbn [fst]. unfold scan_text.
  rewrite (updatePriceElement_has_price this env e e' He), Hp.
  rewrite andb_false_r. reflexivity.
Qed.

(** X22: under a preference whose lookup is not [undefined] the scan of a
    flat page completes, and every element with a price attribute that
    has no child element after the scan is then the result of
    [updatePriceElement] on it: the second loop leaves it alone. *)
Theorem processPageElements_updates_priced (this : Config) (env : Env)
        (document : list Element) :
  get_currency this (getUserCurrency this env) <> Undefined ->
  flat_page document ->
  snd (processPageElements this env document) = None
  /\ Forall2 (fun e e' =>
                hasAttribute e (js "data-price") = true ->
                tag_free (innerHTML e') = true ->
                updatePriceElement this env e = Ok e')
             document (fst (processPageElements this env document)).
Proof.
  intros H _. destruct (processPageElements_priced this env document H)
    as [Hn Hf].
  split; [exact Hn|].
  eapply Forall2_impl; [exact Hf|]. cbn beta. auto.
Qed.

Lemma processPageElements_updates_priced_witness :
  let document := [price_element (js "10") (js "$10");
                   class_element (js "note") (js "free delivery")] in
  let env := preference (js "GBP") in
  snd (processPageElements CurrencyConfig env document) = None
  /\ Forall2 (fun e e' =>
                hasAttribute e (js "data-price") = true ->
                tag_free (innerHTML e') = true ->
                updatePriceElement CurrencyConfig env e = Ok e')
             document (fst (processPageElements CurrencyConfig env document)).
Proof.
  intros document env.
  apply (processPageElements_updates_priced CurrencyConfig env document).
  - vm_compute. discriminate.
  - repeat constructor; intros _; vm_compute; reflexivity.
Defined.

(** Under a usable preference the second loop annotates and updates the
    elements of a price class without price attribute in the text of which
    it finds a price. *)
Lemma processPageElements_annotates (this : Config) (env : Env)
      (document : list Element) :
  get_currency this (getUserCurrency this env) <> Undefined ->
  Forall2 (fun e e' =>
             forall n,
               price_class e = true ->
               hasAttribute e (js "data-price") = false ->
               extractPriceFromText (textContent e) = Some n ->
               updatePriceElement this env (annotated e n) = Ok e'
               /\ getAttribute e' (js "data-price") = Some n
               /\ getAttribute e' (js "data-original-text")
                  = Some (textContent e)
               /\ getAttribute e' (js "data-currency")
                  = Some (getUserCurrency this env))
          document (fst (processPageElements this env document)).
Proof.
  intros H. rewrite processPageElements_usable by exact H.
  cbn [fst]. apply Forall2_map_r. intros e n Hc Hp Hx.
  unfold scan_attribute. rewrite Hp. cbn [fst].
  assert (Ht : text_price e = true).
  { unfold text_price. rewrite Hc, Hp, Hx. cbn [andb negb].
    apply bool_decide_eq_true_2. eauto. }
  destruct (text_price_extracted e Ht) as (c & p & _ & Hx' & Hn).
  rewrite Hx in Hx'. injection Hx' as ->.
  unfold scan_text. rewrite Hc, Hp, Hx. cbn [andb negb]. cbv zeta.
  change (setAttribute (setAttribute e (js "data-price") (c :: p))
            (js "data-original-text")
            (textContent (setAttribute e (js "data-price") (c :: p))))
    with (annotated e (c :: p)).
  destruct (updatePriceElement_usable this env (annotated e (c :: p)) H)
    as [e' He].
  unfold in_place. rewrite He. cbn [fst].
  split; [reflexivity|].
  rewrite !(updatePriceElement_attributes _ _ _ _ _ He)
    by (vm_compute; discriminate).
  repeat split.
  - unfold annotated, getAttribute, setAttribute. cbn [attributes].
    rewrite lookup_insert_ne by (vm_compute; discriminate).
    apply lookup_insert_eq.
  - unfold annotated, getAttribute, setAttribute. cbn [attributes].
    apply lookup_insert_eq.
  - apply (updatePriceElement_tagged this env (annotated e (c :: p)) e');
      [rewrite annotated_price; exact Hn|exact He].
Qed.

(** X23: under a preference whose lookup is not [undefined], on a flat
    page, an element of a price class without price attribute, in the
    text of which a price is found, is given that price as its price
    attribute and its text as [data-original-text], and is then updated
    and tagged with the preference. *)
Theorem processPageElements_text_price (this : Config) (env : Env)
        (document : list Element) :
  get_currency this (getUserCurrency this env) <> Undefined ->
  flat_page document ->
  Forall2 (fun e e' =>
             forall n,
               price_class e = true ->
               hasAttribute e (js "data-price") = false ->
               extractPriceFromText (textContent e) = Some n ->
               updatePriceElement this env (annotated e n) = Ok e'
               /\ getAttribute e' (js "data-price") = Some n
               /\ getAttribute e' (js "data-original-text")
                  = Some (textContent e)
               /\ getAttribute e' (js "data-currency")
                  = Some (getUserCurrency this env))
          document (fst (processPageElements this env document)).
Proof.
  intros H _. apply processPageElements_annotates, H.
Qed.

Lemma processPageElements_text_price_witness :
  let document := [class_element (js "item price") (js "only 1299.95 USD");
                   price_element (js "3") (js "$3")] in
  let env := preference (js "JPY") in
  Forall2 (fun e e' =>
             forall n,
               price_class e = true ->
               hasAttribute e (js "data-price") = false ->
               extractPriceFromText (textContent e) = Some n ->
               updatePriceElement CurrencyConfig env (annotated e n) = Ok e'
               /\ getAttribute e' (js "data-price") = Some n
               /\ getAttribute e' (js "data-original-text")
                  = Some (textContent e)
               /\ getAttribute e' (js "data-currency")
                  = Some (getUserCurrency CurrencyConfig env))
          document (fst (processPageElements CurrencyConfig env document)).
Proof.
  intros document env.
  apply (processPageElements_text_price CurrencyConfig env document).
  - vm_compute. discriminate.
  - repeat constructor; intros _; vm_compute; reflexivity.
Defined.

(** The scan reads the text of an element, not its markup: a price the
    text holds is found though a character reference breaks it in the
    markup, and a price that stands in an attribute of a child is not. *)
Example processPageElements_reads_text :
  let unusable := preference (js "DOES_NOT_EXIST") in
  let spaced :=
    {| attributes := {[ js "class" := js "price" ]};
       innerHTML := js "5&nbsp;USD";
       textContent := js "5" ++ [160%N] ++ js "USD";
       parsed_text := fun html => html |} in
  let image :=
    {| attributes := {[ js "class" := js "price" ]};
       innerHTML := js "<img alt=$7>";
       textContent := [];
       parsed_text := fun html => html |} in
  convertible spaced = true
  /\ snd (processPageElements CurrencyConfig unusable [spaced])
     = Some TypeError
  /\ convertible image = false
  /\ processPageElements CurrencyConfig unusable [image] = ([image], None).
Proof. vm_compute. repeat split. Qed.

(* ===================================================================== *)
(** ** The observer: its targets and its calls *)
(* ===================================================================== *)

Lemma update_each_Throw (this : Config) (env : Env) : forall targets,
  snd (update_each this env targets) = Some TypeError
  <-> get_currency this (getUserCurrency this env) = Undefined
      /\ exists e, In e targets /\ numeric_price e = true.
Proof.
  induction targets as [|e l IH].
  - cbn. split; [discriminate|intros [_ (e & [] & _)]].
  - cbn [update_each].
    destruct (updatePriceElement this env e) as [e'|[]] eqn:E.
    + destruct (update_each this env l) as [t x]. cbn [snd] in *.
      rewrite IH. split.
      * intros [Hu (d & Hd & Hn)]. split; [exact Hu|].
        exists d. split; [right; exact Hd|exact Hn].
      * intros [Hu (d & [<-|Hd] & Hn)]; [|split; eauto].
        assert (Ht : updatePriceElement this env e = Throw TypeError)
          by (apply updatePriceElement_Throw; auto).
        congruence.
    + apply updatePriceElement_Throw in E as [Hn Hu].
      split; [|reflexivity]. intros _. split; [exact Hu|].
      exists e. split; [left; reflexivity|exact Hn].
Qed.

Lemma updatePriceElement_not_numeric (this : Config) (env : Env)
      (e : Element) :
  numeric_price e = false -> updatePriceElement this env e = Ok e.
Proof.
  intros H. apply updatePriceElement_NaN.
  unfold parseFloat_attribute. rewrite parseFloat_NaN.
  unfold numeric_price in H. rewrite H. reflexivity.
Qed.

Lemma update_each_stops (this : Config) (env : Env) (x : Exn) :
  forall targets,
    snd (update_each this env targets) = Some x ->
    exists pre t post,
      targets = pre ++ t :: post
      /\ Forall (fun e => numeric_price e = false) pre
      /\ numeric_price t = true
      /\ fst (update_each this env targets)
         = map (fun e => (e, Ok e)) pre ++ [(t, Throw x)].
Proof.
  induction targets as [|e l IH]; [discriminate|].
  intros H.
  assert (Hu : get_currency this (getUserCurrency this env) = Undefined).
  { destruct x. apply update_each_Throw in H as [Hu _]. exact Hu. }
  revert H. cbn [update_each].
  destruct (numeric_price e) eqn:En.
  - assert (Ht : updatePriceElement this env e = Throw TypeError)
      by (apply updatePriceElement_Throw; auto).
    rewrite Ht. cbn [snd fst]. intros [= <-].
    exists [], e, l. repeat split; [constructor|exact En].
  - rewrite (updatePriceElement_not_numeric this env e En).
    destruct (update_each this env l) as [t0 x0]. cbn [snd fst] in *.
    intros Hx. destruct (IH Hx) as (pre & t & post & -> & Hpre & Hn & Ht).
    exists (e :: pre), t, post. rewrite Ht.
    repeat split; [constructor; assumption|exact Hn].
Qed.

(** X24: when the callback of the observer throws, it has written to no
    element: the calls before the one that throws were made on targets
    without numeric price attribute, in order, and each returned with its
    element as it was; the call that throws is the first on a target with
    a numeric price attribute, and it is the last. *)
Theorem observer_callback_stops_at_throw (this : Config) (env : Env)
        (mutations : list MutationRecord) (x : Exn) :
  snd (observer_callback this env mutations) = Some x ->
  exists pre t post,
    observer_targets mutations = pre ++ t :: post
    /\ Forall (fun e => numeric_price e = false) pre
    /\ numeric_price t = true
    /\ fst (observer_callback this env mutations)
       = map (fun e => (e, Ok e)) pre ++ [(t, Throw x)].
Proof. apply update_each_stops. Qed.

Lemma observer_callback_stops_at_throw_witness :
  let mutations :=
    [mkMutation [ElementNode (price_element (js "soon") (js "$1")) [];
                 TextNode (js " ")];
     mkMutation [ElementNode (price_element (js "5") (js "$5")) [];
                 ElementNode (price_element (js "7") (js "$7")) []]] in
  let env := preference (js "DOES_NOT_EXIST") in
  exists pre t post,
    observer_targets mutations = pre ++ t :: post
    /\ Forall (fun e => numeric_price e = false) pre
    /\ numeric_price t = true
    /\ fst (observer_callback CurrencyConfig env mutations)
       = map (fun e => (e, Ok e)) pre ++ [(t, Throw TypeError)].
Proof.
  intros mutations env.
  apply (observer_callback_stops_at_throw CurrencyConfig env mutations).
  vm_compute. reflexivity.
Defined.

(** X25: the callback of the observer throws exactly when the lookup of
    the resolved preference is [undefined] and one of its targets has a
    numeric price attribute. *)
Theorem observer_callback_throws_iff (this : Config) (env : Env)
        (mutations : list MutationRecord) :
  snd (observer_callback this env mutations) = Some TypeError
  <-> get_currency this (getUserCurrency this env) = Undefined
      /\ exists e, In e (observer_targets mutations)
                   /\ numeric_price e = true.
Proof. apply update_each_Throw. Qed.

(** X26: every element the observer passes to [updatePriceElement]
    carries a price attribute. *)
Theorem observer_targets_have_price (mutations : list MutationRecord) :
  Forall (fun e => hasAttribute e (js "data-price") = true)
         (observer_targets mutations).
Proof.
  unfold observer_targets.
  apply Forall_flat_map, List.Forall_forall. intros mutation _.
  apply Forall_flat_map, List.Forall_forall. intros node _.
  destruct node as [|e children]; [constructor|].
  destruct (hasAttribute e (js "data-price")) eqn:E.
  - constructor; [exact E|constructor].
  - unfold querySelectorAll_data_price. apply List.Forall_forall.
    intros d Hd. apply list_elem_of_In, list_elem_of_filter in Hd as [Hd _].
    apply Is_true_true. exact Hd.
Qed.

(** X27: the observer misses no element that carries a price attribute
    among the added elements, and none among the descendants of an added
    element that carries none. *)
Theorem observer_targets_complete (mutations : list MutationRecord)
        (mutation : MutationRecord) (e : Element) (children : list Node) :
  In mutation mutations ->
  In (ElementNode e children) (addedNodes mutation) ->
  (hasAttribute e (js "data-price") = true
   -> In e (observer_targets mutations))
  /\ (hasAttribute e (js "data-price") = false
      -> forall d, In d (descendants (ElementNode e children)) ->
                   hasAttribute d (js "data-price") = true ->
                   In d (observer_targets mutations)).
Proof.
  intros Hm Hn. unfold observer_targets. split.
  - intros Hp. apply in_flat_map. exists mutation. split; [exact Hm|].
    apply in_flat_map. exists (ElementNode e children). split; [exact Hn|].
    rewrite Hp. left. reflexivity.
  - intros Hp d Hd Hdp. apply in_flat_map. exists mutation.
    split; [exact Hm|].
    apply in_flat_map. exists (ElementNode e children). split; [exact Hn|].
    rewrite Hp. unfold querySelectorAll_data_price.
    apply list_elem_of_In, list_elem_of_filter. split.
    + apply Is_true_true. exact Hdp.
    + apply list_elem_of_In. exact Hd.
Qed.

Lemma observer_targets_complete_witness :
  let child := price_element (js "20") (js "$20") in
  let parent := class_element (js "card") (js "<b data-price=20>$20</b>") in
  let node := ElementNode parent [ElementNode child [TextNode (js "$20")]] in
  let mutations := [mkMutation [TextNode (js " "); node]] in
  (hasAttribute parent (js "data-price") = true
   -> In parent (observer_targets mutations))
  /\ (hasAttribute parent (js "data-price") = false
      -> forall d, In d (descendants node) ->
                   hasAttribute d (js "data-price") = true ->
                   In d (observer_targets mutations)).
Proof.
  intros child parent node mutations.
  apply (observer_targets_complete mutations
           (mkMutation [TextNode (js " "); node]) parent
           [ElementNode child [TextNode (js "$20")]]).
  - left. reflexivity.
  - right. left. reflexivity.
Defined.
